(** * A shallow embedding of get_tag.py

    The script resolves the latest version of an artifact from one upstream
    (PyPI, npm, the Go proxy, GitHub, GitLab or the calendar), fetches the
    tags already published on Docker Hub and prints [tag=<version>] when the
    version is not among them.

    The effects of the script are threaded through a small state and error
    monad [M]: the state is a [world] holding the network (the answer to the
    k-th HTTP request of the run, for a given URL), the wall clock (as the
    formatting of the current UTC instant) and the trace of observable events
    (requests, sleeps, lines written to stderr and stdout).  Python
    exceptions are the [Err] case of [result].  JSON documents are modelled
    by their decoded value [json]; numbers are integers. *)

From Stdlib Require Import String Ascii List ZArith Bool Lia.
From Stdlib Require Import Sorting.Permutation Sorting.Sorted.
Import ListNotations.
Open Scope string_scope.
Open Scope list_scope.

Notation "a ^^ b" := (String.append a b) (at level 60, right associativity).

(** ** Python values and exceptions *)

Set Warnings "-register-all".

Inductive json : Type :=
| JNull
| JBool (b : bool)
| JNum (n : Z)
| JStr (s : string)
| JArr (xs : list json)
| JObj (kvs : list (string * json)).

Inductive exn : Type :=
| URLError
| HTTPError (code : Z)
| AssertionError
| KeyError (k : json)
| TypeError
| IndexError
| ValueError
| NotImplementedError
| JSONDecodeError
| AttributeError.

Inductive result (A : Type) : Type :=
| Ok (a : A)
| Err (e : exn).
Arguments Ok {A} a.
Arguments Err {A} e.

Class Monad (m : Type -> Type) := {
  ret : forall {A}, A -> m A;
  bind : forall {A B}, m A -> (A -> m B) -> m B
}.

Notation "x <- c1 ;; c2" := (bind c1 (fun x => c2))
  (at level 61, c1 at next level, right associativity).
Notation "c1 ;; c2" := (bind c1 (fun _ => c2))
  (at level 61, right associativity).

#[global] Instance Monad_result : Monad result := {
  ret _ a := Ok a;
  bind _ _ r k := match r with Ok a => k a | Err e => Err e end
}.

(** Python truthiness of a JSON value. *)
Definition truthy (v : json) : bool :=
  match v with
  | JNull => false
  | JBool b => b
  | JNum n => negb (Z.eqb n 0)
  | JStr s => negb (String.eqb s "")
  | JArr xs => match xs with [] => false | _ => true end
  | JObj kvs => match kvs with [] => false | _ => true end
  end.

Fixpoint assoc (k : string) (kvs : list (string * json)) : option json :=
  match kvs with
  | [] => None
  | (k', v) :: kvs' => if String.eqb k k' then Some v else assoc k kvs'
  end.

Fixpoint chars (s : string) : list json :=
  match s with
  | EmptyString => []
  | String c s' => JStr (String c EmptyString) :: chars s'
  end.

(** [xs[i]] for a list or a string, negative indices counting from the end. *)
Definition py_index {A : Type} (xs : list A) (i : Z) : result A :=
  let n := Z.of_nat (length xs) in
  let j := if (i <? 0)%Z then (i + n)%Z else i in
  if ((j <? 0) || (n <=? j))%Z then Err IndexError else
  match nth_error xs (Z.to_nat j) with
  | Some x => Ok x
  | None => Err IndexError
  end.

Definition bool_as_int (b : bool) : Z := if b then 1%Z else 0%Z.

(** [o[k]] on a decoded JSON value.  JSON object keys are strings, so any
    other hashable key is missing; [bool] is a subclass of [int]. *)
Definition getitem (o k : json) : result json :=
  match o, k with
  | JObj kvs, JStr s =>
      match assoc s kvs with
      | Some v => Ok v
      | None => Err (KeyError k)
      end
  | JObj _, (JArr _ | JObj _) => Err TypeError
  | JObj _, _ => Err (KeyError k)
  | JArr xs, JNum i => py_index xs i
  | JArr xs, JBool b => py_index xs (bool_as_int b)
  | JStr s, JNum i => py_index (chars s) i
  | JStr s, JBool b => py_index (chars s) (bool_as_int b)
  | _, _ => Err TypeError
  end.

(** [o["name"]]. *)
Definition field (o : json) (name : string) : result json := getitem o (JStr name).


(** The items produced by iterating a value ([for x in v]): the elements of
    a list, the keys of a dict, the characters of a string. *)
Definition py_iter (v : json) : result (list json) :=
  match v with
  | JArr xs => Ok xs
  | JObj kvs => Ok (map (fun kv => JStr (fst kv)) kvs)
  | JStr s => Ok (chars s)
  | _ => Err TypeError
  end.

(** A list comprehension [[f(x) for x in xs]]: elements are processed left
    to right and the first exception aborts it. *)
Fixpoint map_r {A B : Type} (f : A -> result B) (xs : list A) : result (list B) :=
  match xs with
  | [] => Ok []
  | x :: xs' =>
      match f x with
      | Ok y => match map_r f xs' with Ok ys => Ok (y :: ys) | Err e => Err e end
      | Err e => Err e
      end
  end.

(** [xs[-1]]. *)
Definition py_last {A : Type} (xs : list A) : result A :=
  match rev xs with
  | x :: _ => Ok x
  | [] => Err IndexError
  end.

(** [json.loads(response.read())]: [None] is a body that is not JSON. *)
Definition loads (body : option json) : result json :=
  match body with
  | Some v => Ok v
  | None => Err JSONDecodeError
  end.

(** ** The world and the effect monad *)

(** The answer of the network to one request: a response with its status
    and body, or an exception raised by [urllib.request.urlopen]. *)
Inductive outcome : Type :=
| Response (status : Z) (body : option json)
| Raise (e : exn).

Inductive event : Type :=
| EvLogUrl (url : string)      (* print(f"{url=}", file=sys.stderr) *)
| EvLogSleep (n : Z)           (* print(f"{sleep=}", file=sys.stderr) *)
| EvSleep (n : Z)              (* time.sleep(n) *)
| EvRequest (url : string)     (* urllib.request.urlopen(url) *)
| EvStdout (line : string).    (* print(line) *)

Record world : Type := {
  net : nat -> string -> outcome;
  clock_fmt : string -> string;
  trace : list event
}.

Definition is_request (ev : event) : bool :=
  match ev with EvRequest _ => true | _ => false end.

Definition requests (t : list event) : list event := filter is_request t.

Definition stdout_lines (t : list event) : list string :=
  flat_map (fun ev => match ev with EvStdout l => [l] | _ => [] end) t.

Definition M (A : Type) : Type := world -> result A * world.

#[global] Instance Monad_M : Monad M := {
  ret _ a w := (Ok a, w);
  bind _ _ c k w := match c w with
                    | (Ok a, w') => k a w'
                    | (Err e, w') => (Err e, w')
                    end
}.

Definition raise {A : Type} (e : exn) : M A := fun w => (Err e, w).

Definition lift {A : Type} (r : result A) : M A := fun w => (r, w).

Definition emit (ev : event) : M unit :=
  fun w => (Ok tt, {| net := net w; clock_fmt := clock_fmt w;
                      trace := trace w ++ [ev] |}).

(** One call of [urllib.request.urlopen(url)]: the network answers the
    request by its index in the run. *)
Definition http_get (url : string) : M outcome :=
  fun w => (Ok (net w (length (requests (trace w))) url),
            {| net := net w; clock_fmt := clock_fmt w;
               trace := trace w ++ [EvRequest url] |}).

(** ** The resilient fetcher *)

Definition _RETRIES : nat := 3.

(** The body of the [try] in [_urlopen]: the response of
    [urllib.request.urlopen(url)], checked by [assert 200 == response.status]. *)
Definition try_response (o : outcome) : result (option json) :=
  match o with
  | Response status body => if Z.eqb 200 status then Ok body else Err AssertionError
  | Raise e => Err e
  end.

(** [_urlopen(url, __retries)]: any exception of the [try] is retried while
    [__retries] is non-zero, after sleeping [30 * (_RETRIES - __retries + 1)];
    with no retry left it is re-raised. *)
Fixpoint _urlopen (url : string) (retries : nat) : M (option json) :=
  (if Nat.eqb _RETRIES retries then emit (EvLogUrl url) else ret tt) ;;
  o <- http_get url ;;
  match try_response o with
  | Ok response => ret response
  | Err e =>
      match retries with
      | O => raise e
      | S r =>
          let sleep := (30 * (Z.of_nat _RETRIES - Z.of_nat retries + 1))%Z in
          emit (EvLogSleep sleep) ;; emit (EvSleep sleep) ;; _urlopen url r
      end
  end.

Definition urlopen (url : string) : M (option json) := _urlopen url _RETRIES.

(** ** Published Docker Hub tags *)

Definition get_docker_tags (repository : string) : M (list json) :=
  if String.eqb repository "" then ret [] else
  let url := "https://hub.docker.com/v2/repositories/" ^^ repository ^^ "/tags" in
  response <- urlopen url ;;
  lift (d <- loads response ;;
        results <- field d "results" ;;
        items <- py_iter results ;;
        map_r (fun result => field result "name") items).

(** ** String helpers: single-character [in], [count], [split] *)

(** The text before and after the first occurrence of [c] in [s]. *)
Fixpoint break_at (c : ascii) (s : string) : option (string * string) :=
  match s with
  | EmptyString => None
  | String d s' =>
      if Ascii.eqb c d then Some (EmptyString, s') else
      match break_at c s' with
      | Some (a, b) => Some (String d a, b)
      | None => None
      end
  end.

(** [String c EmptyString in s]. *)
Definition contains (c : ascii) (s : string) : bool :=
  match break_at c s with Some _ => true | None => false end.

(** [s.count(c)]. *)
Fixpoint count_char (c : ascii) (s : string) : nat :=
  match s with
  | EmptyString => O
  | String d s' => (if Ascii.eqb c d then 1 else 0) + count_char c s'
  end.

(** [s.split(c, maxsplit)]. *)
Fixpoint split_n (c : ascii) (maxsplit : nat) (s : string) : list string :=
  match maxsplit with
  | O => [s]
  | S n =>
      match break_at c s with
      | None => [s]
      | Some (a, b) => a :: split_n c n b
      end
  end.

(** [s.replace(c, r)]. *)
Fixpoint replace_char (c : ascii) (r s : string) : string :=
  match s with
  | EmptyString => EmptyString
  | String d s' => (if Ascii.eqb c d then r else String d EmptyString) ^^ replace_char c r s'
  end.

(** ** Repository references *)

Definition _SEP_BRANCH : ascii := ":".
Definition _SEP_BASE : ascii := "@".
Definition _DEFAULT_BRANCH : string := "".
Definition _DEFAULT_GH_BASE : string := "https://api.github.com".
Definition _DEFAULT_GL_BASE : string := "https://gitlab.com".

(** Unpacking [a, b = seq] of a sequence that is not a pair raises
    [ValueError]. *)
Definition unpack2 (parts : list string) : result (string * string) :=
  match parts with
  | [a; b] => Ok (a, b)
  | _ => Err ValueError
  end.

Definition _get_repository_base (repository default_base : string)
  : result (string * string) :=
  let repository :=
    if contains _SEP_BASE repository then repository
    else repository ^^ String _SEP_BASE EmptyString ^^ default_base in
  unpack2 (split_n _SEP_BASE 1 repository).

Definition _get_repository_branch (repository : string) : result (string * string) :=
  let repository :=
    if contains _SEP_BRANCH repository then repository
    else repository ^^ String _SEP_BRANCH EmptyString ^^ _DEFAULT_BRANCH in
  unpack2 (split_n _SEP_BRANCH 1 repository).

Definition _get_repository_path (repository : string) : result (string * string) :=
  let repository :=
    if Nat.eqb 1 (count_char "/" repository) then repository ^^ "/" else repository in
  match split_n "/" 2 repository with
  | [owner; repo; path] => Ok (owner ^^ "/" ^^ repo, path)
  | _ => Err ValueError
  end.

Definition _get_gh_repository_base (repository : string) : result (string * string) :=
  _get_repository_base repository _DEFAULT_GH_BASE.

Definition _get_gl_repository_base (repository : string) : result (string * string) :=
  _get_repository_base repository _DEFAULT_GL_BASE.

(** ** Formatting and comparing values *)

Fixpoint digits_rev (fuel : nat) (n : Z) (acc : string) : string :=
  match fuel with
  | O => acc
  | S f =>
      let acc' := String (ascii_of_nat (48 + Z.to_nat (n mod 10))) acc in
      if Z.eqb (n / 10) 0 then acc' else digits_rev f (n / 10) acc'
  end.

(** [str(n)] for an integer. *)
Definition str_of_Z (n : Z) : string :=
  let body := digits_rev (S (Z.to_nat (Z.log2 (Z.abs n)))) (Z.abs n) EmptyString in
  if (n <? 0)%Z then "-" ^^ body else body.

Fixpoint join (sep : string) (xs : list string) : string :=
  match xs with
  | [] => EmptyString
  | [x] => x
  | x :: xs' => x ^^ sep ^^ join sep xs'
  end.

Definition hex_digit (n : nat) : ascii :=
  match String.get n "0123456789abcdef" with Some c => c | None => "0"%char end.

(** [\xHH] for a character code below 256. *)
Definition hex_escape (c : ascii) : string :=
  let n := nat_of_ascii c in
  String "\" (String "x" (String (hex_digit (n / 16)) (String (hex_digit (n mod 16)) EmptyString))).

(** A character of [repr] that is printed as it is: the printable ASCII
    characters and, read as the code points U+00A1 to U+00FF, the printable
    Latin-1 ones (U+0080 to U+00A0 and the soft hyphen U+00AD are not
    printable). *)
Definition repr_printable (c : ascii) : bool :=
  let n := nat_of_ascii c in
  (Nat.leb 32 n && Nat.ltb n 127) || (Nat.leb 161 n && negb (Nat.eqb n 173)).

(** [repr(s)] for a string: single quotes unless the string contains a
    single quote and no double quote; the quote in use and the backslash
    are escaped, tab, newline and carriage return by their letter, other
    characters that are not printable by [\xHH]. *)
Definition py_repr_str (s : string) : string :=
  let quote : ascii := if contains "'" s && negb (contains "034" s) then "034"%char else "'"%char in
  let fix esc (s : string) : string :=
    match s with
    | EmptyString => EmptyString
    | String c s' =>
        let e :=
          if Ascii.eqb c quote || Ascii.eqb c "\"%char then String "\" (String c EmptyString)
          else if Ascii.eqb c "009"%char then "\t"
          else if Ascii.eqb c "010"%char then "\n"
          else if Ascii.eqb c "013"%char then "\r"
          else if repr_printable c then String c EmptyString
          else hex_escape c in
        e ^^ esc s'
    end in
  String quote (esc s ^^ String quote EmptyString).

(** [repr(v)] for a decoded JSON value. *)
Fixpoint py_repr (v : json) : string :=
  match v with
  | JNull => "None"
  | JBool true => "True"
  | JBool false => "False"
  | JNum n => str_of_Z n
  | JStr s => py_repr_str s
  | JArr xs => "[" ^^ join ", " (map py_repr xs) ^^ "]"
  | JObj kvs =>
      "{" ^^ join ", " (map (fun kv => py_repr_str (fst kv) ^^ ": " ^^ py_repr (snd kv)) kvs) ^^ "}"
  end.

(** [str(v)], as used by an f-string. *)
Definition py_str (v : json) : string :=
  match v with
  | JStr s => s
  | _ => py_repr v
  end.

Definition as_int (v : json) : option Z :=
  match v with
  | JNum n => Some n
  | JBool b => Some (bool_as_int b)
  | _ => None
  end.

(** Python [==] on decoded JSON values: [True == 1], and dicts compare
    as mappings (a decoded object has distinct keys). *)
Fixpoint py_eq (a b : json) : bool :=
  match a, b with
  | JNull, JNull => true
  | JStr x, JStr y => String.eqb x y
  | JArr xs, JArr ys =>
      (fix go (xs ys : list json) : bool :=
         match xs, ys with
         | [], [] => true
         | x :: xs', y :: ys' => py_eq x y && go xs' ys'
         | _, _ => false
         end) xs ys
  | JObj kvs, JObj kws =>
      Nat.eqb (length kvs) (length kws) &&
      (fix go (kvs : list (string * json)) : bool :=
         match kvs with
         | [] => true
         | (k, v) :: kvs' =>
             match assoc k kws with
             | Some w => py_eq v w && go kvs'
             | None => false
             end
         end) kvs
  | _, _ =>
      match as_int a, as_int b with
      | Some x, Some y => Z.eqb x y
      | _, _ => false
      end
  end.

(** [x in xs] for a list [xs]. *)
Definition py_in (x : json) (xs : list json) : bool := existsb (py_eq x) xs.

(** Python [<] on the sort keys of [get_pip_versions_2]: strings compare
    character by character, integers (and booleans) numerically, lists
    lexicographically (the first items that are not [==] decide, and when
    one list is a prefix of the other the shorter one is smaller); comparing
    a string with a number, a list with anything but a list, or [None] or a
    dict with anything, raises [TypeError]. *)
Fixpoint key_lt (a b : json) : result bool :=
  match a, b with
  | JStr x, JStr y => Ok (String.ltb x y)
  | JArr xs, JArr ys =>
      (fix go (xs ys : list json) : result bool :=
         match xs, ys with
         | [], [] => Ok false
         | [], _ :: _ => Ok true
         | _ :: _, [] => Ok false
         | x :: xs', y :: ys' => if py_eq x y then go xs' ys' else key_lt x y
         end) xs ys
  | _, _ =>
      match as_int a, as_int b with
      | Some x, Some y => Ok (Z.ltb x y)
      | _, _ => Err TypeError
      end
  end.

(** [sorted(xs, key=...)] on the (key, item) pairs: a stable sort that only
    asks whether one key is smaller than another.  On keys that are totally
    ordered it returns the same list as Python's sort; on a list of at least
    two keys of incomparable types both raise [TypeError]. *)
Fixpoint insert_by_key (x : json * json) (l : list (json * json))
  : result (list (json * json)) :=
  match l with
  | [] => Ok [x]
  | y :: l' =>
      match key_lt (fst y) (fst x) with
      | Ok true =>
          match insert_by_key x l' with
          | Ok r => Ok (y :: r)
          | Err e => Err e
          end
      | Ok false => Ok (x :: y :: l')
      | Err e => Err e
      end
  end.

Fixpoint sort_by_key (l : list (json * json)) : result (list (json * json)) :=
  match l with
  | [] => Ok []
  | x :: l' =>
      match sort_by_key l' with
      | Ok s => insert_by_key x s
      | Err e => Err e
      end
  end.

(** [filter(pred, xs)] consumed into a list. *)
Fixpoint filter_r {A : Type} (pred : A -> result bool) (xs : list A) : result (list A) :=
  match xs with
  | [] => Ok []
  | x :: xs' =>
      match pred x with
      | Ok true => match filter_r pred xs' with Ok ys => Ok (x :: ys) | Err e => Err e end
      | Ok false => filter_r pred xs'
      | Err e => Err e
      end
  end.

Notation "' p <- c1 ;; c2" := (bind c1 (fun x => match x with p => c2 end))
  (at level 61, p pattern, c1 at next level, right associativity).

(** ** Version providers *)

(** The predicate given to [filter] in [get_pip_versions_2]:
    [(release := releases[release]) and not release[0]["yanked"]]. *)
Definition pip_release_filter (releases name : json) : result bool :=
  release <- getitem releases name ;;
  if truthy release then
    first <- getitem release (JNum 0) ;;
    yanked <- field first "yanked" ;;
    ret (negb (truthy yanked))
  else ret false.

(** The sort key of [get_pip_versions_2]:
    [releases[release][0]["upload_time_iso_8601"]]. *)
Definition pip_release_key (releases name : json) : result json :=
  files <- getitem releases name ;;
  first <- getitem files (JNum 0) ;;
  field first "upload_time_iso_8601".

(** The part of [get_pip_versions_2] after the fetch: [sorted] first
    consumes the [filter], then computes every key, then sorts. *)
Definition pip_versions_of (response : option json) : result (list json) :=
  d <- loads response ;;
  releases <- field d "releases" ;;
  names <- py_iter releases ;;
  versions <- filter_r (pip_release_filter releases) names ;;
  keys <- map_r (pip_release_key releases) versions ;;
  sorted <- sort_by_key (combine keys versions) ;;
  ret (map snd sorted).

Definition get_pip_versions_2 (package : string) : M (list json) :=
  response <- urlopen ("https://pypi.org/pypi/" ^^ package ^^ "/json") ;;
  lift (pip_versions_of response).

Definition get_pip_version_2 (package : string) : M json :=
  versions <- get_pip_versions_2 package ;;
  lift (py_last versions).

Definition get_pip_version (package : string) : M json := get_pip_version_2 package.

Definition get_npm_version_1 (package : string) : M json :=
  response <- urlopen ("https://registry.npmjs.org/" ^^ package) ;;
  lift (d <- loads response ;; tags <- field d "dist-tags" ;; field tags "latest").

Definition get_npm_version (package : string) : M json := get_npm_version_1 package.

Definition get_go_version_1 (module : string) : M json :=
  response <- urlopen ("https://proxy.golang.org/" ^^ module ^^ "/@latest") ;;
  lift (d <- loads response ;; field d "Version").

Definition get_go_version (module : string) : M json := get_go_version_1 module.

(** [[result[key] for result in reversed(json.loads(response.read()))]]:
    the shape shared by the GitHub and GitLab list providers. *)
Definition newest_first (key : string) (response : option json) : result (list json) :=
  d <- loads response ;;
  items <- py_iter d ;;
  map_r (fun result => field result key) (rev items).

Definition gh_commits_url (repository : string) : result string :=
  '(repository, base) <- _get_gh_repository_base repository ;;
  '(repository, branch) <- _get_repository_branch repository ;;
  '(repository, path) <- _get_repository_path repository ;;
  ret (base ^^ "/repos/" ^^ repository ^^ "/commits?sha=" ^^ branch ^^ "&path=" ^^ path).

Definition get_gh_commits (repository : string) : M (list json) :=
  url <- lift (gh_commits_url repository) ;;
  response <- urlopen url ;;
  lift (newest_first "sha" response).

Definition get_gh_commit (repository : string) : M json :=
  commits <- get_gh_commits repository ;; lift (py_last commits).

Definition gh_url (suffix repository : string) : result string :=
  '(repository, base) <- _get_gh_repository_base repository ;;
  ret (base ^^ "/repos/" ^^ repository ^^ suffix).

Definition get_gh_tags (repository : string) : M (list json) :=
  url <- lift (gh_url "/tags" repository) ;;
  response <- urlopen url ;;
  lift (newest_first "name" response).

Definition get_gh_tag (repository : string) : M json :=
  tags <- get_gh_tags repository ;; lift (py_last tags).

(** The condition [not result["draft"] and not result["prerelease"]]. *)
Definition published_release (release : json) : result bool :=
  draft <- field release "draft" ;;
  if truthy draft then ret false else
  prerelease <- field release "prerelease" ;;
  ret (negb (truthy prerelease)).

(** The comprehension of [get_gh_releases_1]: the condition is tested on
    each item of the reversed response, then its ["tag_name"] is taken. *)
Fixpoint releases_comprehension (items : list json) : result (list json) :=
  match items with
  | [] => Ok []
  | release :: rest =>
      match published_release release with
      | Ok true =>
          match field release "tag_name" with
          | Ok t => match releases_comprehension rest with
                    | Ok ts => Ok (t :: ts)
                    | Err e => Err e
                    end
          | Err e => Err e
          end
      | Ok false => releases_comprehension rest
      | Err e => Err e
      end
  end.

Definition gh_releases_of (response : option json) : result (list json) :=
  d <- loads response ;;
  items <- py_iter d ;;
  releases_comprehension (rev items).

Definition get_gh_releases_1 (repository : string) : M (list json) :=
  url <- lift (gh_url "/releases" repository) ;;
  response <- urlopen url ;;
  lift (gh_releases_of response).

Definition get_gh_release_1 (repository : string) : M json :=
  releases <- get_gh_releases_1 repository ;; lift (py_last releases).

Definition get_gh_release_2 (repository : string) : M json :=
  url <- lift (gh_url "/releases/latest" repository) ;;
  response <- urlopen url ;;
  lift (d <- loads response ;; field d "tag_name").

Definition get_gh_release (repository : string) : M json := get_gh_release_2 repository.

Definition get_gh_deployments (repository : string) : M (list json) :=
  url <- lift (gh_url "/deployments" repository) ;;
  response <- urlopen url ;;
  lift (newest_first "sha" response).

Definition get_gh_deployment (repository : string) : M json :=
  deployments <- get_gh_deployments repository ;; lift (py_last deployments).

Definition is_digit (c : ascii) : bool :=
  (Nat.leb 48 (nat_of_ascii c) && Nat.leb (nat_of_ascii c) 57)%bool.

(** [s.isdigit()] on ASCII text. *)
Definition isdigit (s : string) : bool :=
  match s with
  | EmptyString => false
  | _ => forallb is_digit (list_ascii_of_string s)
  end.

(** [int(s)] for a string of decimal digits. *)
Definition int_of_digits (s : string) : Z :=
  fold_left (fun acc c => (10 * acc + Z.of_nat (nat_of_ascii c - 48))%Z)
            (list_ascii_of_string s) 0%Z.

Definition _get_gl_repository (repository base : string) : M json :=
  if isdigit repository then ret (JNum (int_of_digits repository)) else
  response <- urlopen (base ^^ "/api/v4/projects/" ^^ replace_char "/" "%2F" repository) ;;
  lift (d <- loads response ;; field d "id").

Definition get_gl_commits (repository : string) : M (list json) :=
  '(repository, base) <- lift (_get_gl_repository_base repository) ;;
  '(repository, branch) <- lift (_get_repository_branch repository) ;;
  project <- _get_gl_repository repository base ;;
  response <- urlopen (base ^^ "/api/v4/projects/" ^^ py_str project
                       ^^ "/repository/commits?ref_name=" ^^ branch) ;;
  lift (newest_first "id" response).

Definition get_gl_commit (repository : string) : M json :=
  commits <- get_gl_commits repository ;; lift (py_last commits).

Definition get_gl_tags (repository : string) : M (list json) :=
  '(repository, base) <- lift (_get_gl_repository_base repository) ;;
  project <- _get_gl_repository repository base ;;
  response <- urlopen (base ^^ "/api/v4/projects/" ^^ py_str project
                       ^^ "/repository/tags?order_by=version") ;;
  lift (newest_first "name" response).

Definition get_gl_tag (repository : string) : M json :=
  tags <- get_gl_tags repository ;; lift (py_last tags).

(** ** The calendar provider *)

Definition _CR_COICES : list (string * string) :=
  [("hourly", "%Y-%m-%dT%H"); ("daily", "%Y-%m-%d"); ("weekly", "%Y-W%V");
   ("monthly", "%Y-%m"); ("yearly", "%Y"); ("annually", "%Y")].

Fixpoint lookup_str (k : string) (kvs : list (string * string)) : option string :=
  match kvs with
  | [] => None
  | (k', v) :: kvs' => if String.eqb k k' then Some v else lookup_str k kvs'
  end.

(** [datetime.datetime.now(datetime.UTC).strftime(fmt)]. *)
Definition strftime_now (fmt : string) : M string := fun w => (Ok (clock_fmt w fmt), w).

Definition get_cron_tag (cron : string) : M json :=
  match lookup_str cron _CR_COICES with
  | Some fmt => s <- strftime_now fmt ;; ret (JStr s)
  | None => raise (KeyError (JStr cron))
  end.

(** ** The entry point *)

(** The namespace returned by [parser.parse_args()]: each provider option
    is [None] when neither the flag nor its environment variable is set.
    Parsing itself (mutual exclusion of flags given on the command line,
    the choices of [--cr]) is done by argparse before [main] continues. *)
Record args : Type := {
  docker_tag : string;
  pip : option string;
  npm : option string;
  go : option string;
  gh_commit : option string;
  gh_tag : option string;
  gh_release : option string;
  gh_deployment : option string;
  gl_commit : option string;
  gl_tag : option string;
  cr : option string
}.

(** [if args.x:] holds for a non-empty string. *)
Definition chosen (o : option string) : option string :=
  match o with
  | Some s => if String.eqb s "" then None else Some s
  | None => None
  end.

(** The [if]/[elif] chain of [main]. *)
Definition select_tag (a : args) : M json :=
  match chosen (pip a) with Some s => get_pip_version s | None =>
  match chosen (npm a) with Some s => get_npm_version s | None =>
  match chosen (go a) with Some s => get_go_version s | None =>
  match chosen (gh_commit a) with Some s => get_gh_commit s | None =>
  match chosen (gh_tag a) with Some s => get_gh_tag s | None =>
  match chosen (gh_release a) with Some s => get_gh_release s | None =>
  match chosen (gh_deployment a) with Some s => get_gh_deployment s | None =>
  match chosen (gl_commit a) with Some s => get_gl_commit s | None =>
  match chosen (gl_tag a) with Some s => get_gl_tag s | None =>
  match chosen (cr a) with Some s => get_cron_tag s | None =>
  raise NotImplementedError
  end end end end end end end end end end.

(** [main()] from the line after [parser.parse_args()] on (lines 330 to
    354): [a] is the namespace that [parse_args] returned.  Argument parsing
    itself, with its help output and its exits on [-h] or on bad arguments,
    is not modelled. *)
Definition main (a : args) : M unit :=
  tags <- get_docker_tags (docker_tag a) ;;
  tag <- select_tag a ;;
  if negb (py_in tag tags) then emit (EvStdout ("tag=" ^^ py_str tag)) else ret tt.

(** ** The other providers of the module

    [get_pip_versions], [get_npm_versions] and [get_go_versions] are the
    list counterparts of the providers [main] uses. *)

Definition get_pip_versions (package : string) : M (list json) := get_pip_versions_2 package.

(** [d.keys()] on a decoded JSON value: only a dict has the method. *)
Definition py_keys (v : json) : result (list json) :=
  match v with
  | JObj kvs => Ok (map (fun kv => JStr (fst kv)) kvs)
  | _ => Err AttributeError
  end.

Definition get_npm_versions_1 (package : string) : M (list json) :=
  response <- urlopen ("https://registry.npmjs.org/" ^^ package) ;;
  lift (d <- loads response ;; versions <- field d "versions" ;; py_keys versions).

Definition get_npm_versions (package : string) : M (list json) := get_npm_versions_1 package.

(** The loop of [get_go_versions_1]: one fetch of [<version>.info] per line,
    in order, each answer decoded and appended. *)
Fixpoint go_version_infos (module : string) (lines : list string) : M (list json) :=
  match lines with
  | [] => ret []
  | version :: rest =>
      response_version <- urlopen ("https://proxy.golang.org/" ^^ module ^^ "/@v/" ^^ version ^^ ".info") ;;
      info <- lift (loads response_version) ;;
      infos <- go_version_infos module rest ;;
      ret (info :: infos)
  end.

(** [get_go_versions_1(module)].  The network of the model answers with
    decoded JSON; [text_lines] stands for [response.read().decode().splitlines()]
    on the plain-text answer of the [list] endpoint. *)
Definition get_go_versions_1 (text_lines : option json -> result (list string)) (module : string)
  : M (list json) :=
  response <- urlopen ("https://proxy.golang.org/" ^^ module ^^ "/@v/list") ;;
  lines <- lift (text_lines response) ;;
  _ <- go_version_infos module lines ;;
  raise NotImplementedError.

(** ** Providers that read the output of a subprocess

    The command itself ([pip], [npm], [go]) is not modelled: each function
    below takes what the command wrote (decoded text, or the value decoded by
    [json.loads]) and does what the provider does with it.  Text is ASCII. *)

(** The ASCII line boundaries of [str.splitlines]: \n, \v, \f, \r, \x1c,
    \x1d and \x1e (and \r\n as one boundary). *)
Definition is_line_boundary (c : ascii) : bool :=
  match nat_of_ascii c with
  | 10 | 11 | 12 | 13 | 28 | 29 | 30 => true
  | _ => false
  end.

(** [s.splitlines()], [line] being the part of the current line read so far. *)
Fixpoint splitlines_from (line s : string) : list string :=
  match s with
  | EmptyString => if String.eqb line "" then [] else [line]
  | String c s' =>
      if Ascii.eqb c "013" then
        match s' with
        | String d s'' =>
            if Ascii.eqb d "010" then line :: splitlines_from "" s''
            else line :: splitlines_from "" s'
        | EmptyString => [line]
        end
      else if is_line_boundary c then line :: splitlines_from "" s'
      else splitlines_from (line ^^ String c EmptyString) s'
  end.

Definition splitlines (s : string) : list string := splitlines_from "" s.

(** [s[n:]]. *)
Fixpoint drop_chars (n : nat) (s : string) : string :=
  match n, s with
  | O, _ => s
  | S _, EmptyString => EmptyString
  | S n', String _ s' => drop_chars n' s'
  end.

(** [s.split(sep)] for a separator of the two characters [a] and [b]: the
    text is scanned left to right and cut at each occurrence, [part] being
    the piece read so far. *)
Fixpoint split2_from (a b : ascii) (part s : string) : list string :=
  match s with
  | EmptyString => [part]
  | String c s' =>
      match s' with
      | String d s'' =>
          if (Ascii.eqb c a && Ascii.eqb d b)%bool then part :: split2_from a b "" s''
          else split2_from a b (part ^^ String c EmptyString) s'
      | EmptyString => [part ^^ String c EmptyString]
      end
  end.

Definition split2 (a b : ascii) (s : string) : list string := split2_from a b "" s.

(** [re.search] of the pattern of [get_pip_versions_1]: the literal
    ["(from versions: "] is tried at each position from the left, then a
    greedy group of any characters but a newline, then a literal [")"]; so
    the group ends at the last [")"] of the line. *)
Definition from_versions : string := "(from versions: ".

(** The group matched at the start of [r] by the rest of the pattern. *)
Fixpoint group_before_paren (r : string) : option string :=
  match r with
  | EmptyString => None
  | String c r' =>
      if Ascii.eqb c "010" then None else
      match group_before_paren r' with
      | Some g => Some (String c g)
      | None => if Ascii.eqb c ")" then Some EmptyString else None
      end
  end.

Fixpoint search_from_versions (s : string) : option string :=
  match (if String.prefix from_versions s
         then group_before_paren (drop_chars (String.length from_versions) s)
         else None) with
  | Some g => Some g
  | None =>
      match s with
      | EmptyString => None
      | String _ s' => search_from_versions s'
      end
  end.

(** [get_pip_versions_1] on the stderr of [pip install <package>==]:
    [assert match] then [match.group(1).split(", ")]. *)
Definition pip_versions_1_of (stderr : string) : result (list string) :=
  match search_from_versions stderr with
  | Some group => Ok (split2 "," " " group)
  | None => Err AssertionError
  end.

Definition pip_version_1_of (stderr : string) : result string :=
  versions <- pip_versions_1_of stderr ;; py_last versions.

(** [get_pip_versions_3] on the stdout of [pip index versions <package>]:
    [splitlines()[1][20:].split(", ")[::-1]]. *)
Definition pip_versions_3_of (stdout : string) : result (list string) :=
  line <- py_index (splitlines stdout) 1 ;;
  ret (rev (split2 "," " " (drop_chars 20 line))).

Definition pip_version_3_of (stdout : string) : result string :=
  versions <- pip_versions_3_of stdout ;; py_last versions.

(** The first line that starts with [startswith], without that prefix. *)
Fixpoint first_with_prefix (startswith : string) (lines : list string) : result string :=
  match lines with
  | [] => Err AssertionError
  | frozen :: rest =>
      if String.prefix startswith frozen
      then Ok (drop_chars (String.length startswith) frozen)
      else first_with_prefix startswith rest
  end.

(** [get_pip_version_4] on the stdout of [pip freeze] (after
    [pip install --upgrade <package>]). *)
Definition pip_version_4_of (package stdout : string) : result string :=
  first_with_prefix (package ^^ "==") (splitlines stdout).

(** [get_npm_versions_2] on the stdout of [npm show <package> versions --json]. *)
Definition npm_versions_2_of (stdout : option json) : result json := loads stdout.

(** The characters [str.strip()] removes on ASCII text. *)
Definition is_space (c : ascii) : bool :=
  match nat_of_ascii c with
  | 9 | 10 | 11 | 12 | 13 | 28 | 29 | 30 | 31 | 32 => true
  | _ => false
  end.

Fixpoint lstrip_chars (l : list ascii) : list ascii :=
  match l with
  | c :: l' => if is_space c then lstrip_chars l' else l
  | [] => []
  end.

(** [s.strip()]. *)
Definition strip (s : string) : string :=
  string_of_list_ascii (rev (lstrip_chars (rev (lstrip_chars (list_ascii_of_string s))))).

(** [get_npm_version_2] on the stdout of [npm show <package> version]. *)
Definition npm_version_2_of (stdout : string) : string := strip stdout.

(** [get_go_versions_2] on the stdout of [go list -json -m -versions <module>]. *)
Definition go_versions_2_of (stdout : option json) : result json :=
  d <- loads stdout ;; field d "Versions".

Definition go_version_2_of (stdout : option json) : result json :=
  versions <- go_versions_2_of stdout ;; getitem versions (JNum (-1)).

(** ** Notions used to state the properties *)

Definition nreq (w : world) : nat := length (requests (trace w)).

(** [w] with [evs] appended to its trace. *)
Definition after (w : world) (evs : list event) : world :=
  {| net := net w; clock_fmt := clock_fmt w; trace := trace w ++ evs |}.

(** A request that the fetcher has to retry: an exception, or a response
    whose status is not 200. *)
Definition fails (o : outcome) : bool :=
  match o with
  | Response status _ => negb (Z.eqb status 200)
  | Raise _ => true
  end.

(** The releases provider as the spec describes it: draft and prerelease
    entries are filtered out of the newest-first response first, then the
    remaining entries are put oldest-first and their tag names taken. *)
Definition releases_filter_then_reverse (items : list json) : result (list json) :=
  kept <- filter_r published_release items ;;
  map_r (fun release => field release "tag_name") (rev kept).

(** The newest-first releases response of the spec's fourth scenario. *)
Definition scenario4_releases : json :=
  JArr [JObj [("tag_name", JStr "v2"); ("draft", JBool false); ("prerelease", JBool false)];
        JObj [("tag_name", JStr "v1"); ("draft", JBool false); ("prerelease", JBool true)]].

Definition world_serving (body : json) : world :=
  {| net := fun _ _ => Response 200 (Some body); clock_fmt := fun fmt => fmt; trace := [] |}.

(** [x] may come before [y] in the output of [sorted]: the key of [x] is
    smaller than the key of [y], or the key of [y] is not smaller than the
    key of [x]. *)
Definition key_le (x y : json * json) : Prop :=
  key_lt (fst x) (fst y) = Ok true \/ key_lt (fst y) (fst x) = Ok false.

(** [x] occurs in [l] at a position before one of [y]. *)
Inductive before {A : Type} (x y : A) : list A -> Prop :=
| before_here l : In y l -> before x y (x :: l)
| before_later z l : before x y l -> before x y (z :: l).

(** A release that the package-index provider keeps, read on the payload
    the way the code reads a release: it has at least one file and its
    first file is not marked yanked. *)
Definition release_kept (releases name : json) : bool :=
  match getitem releases name with
  | Ok (JArr (first :: _)) =>
      match field first "yanked" with
      | Ok yanked => negb (truthy yanked)
      | Err _ => false
      end
  | _ => false
  end.

(** [a] may be listed before [b] by upload time: the upload time of [a] is
    smaller than that of [b], or that of [b] is not smaller than that of
    [a]. *)
Definition upload_order (releases a b : json) : Prop :=
  exists ta tb, pip_release_key releases a = Ok ta /\ pip_release_key releases b = Ok tb /\
                (key_lt ta tb = Ok true \/ key_lt tb ta = Ok false).

Definition pypi_file (yanked : bool) (time : string) : json :=
  JObj [("yanked", JBool yanked); ("upload_time_iso_8601", JStr time)].

(** The releases of the spec's first scenario: ["1.0.0"] then ["1.1.0"],
    neither yanked, uploaded in that order. *)
Definition scenario1_releases : json :=
  JObj [("1.1.0", JArr [pypi_file false "2021-06-01T00:00:00.000000Z"]);
        ("1.0.0", JArr [pypi_file false "2020-01-01T00:00:00.000000Z"])].

Definition scenario1_pypi : json := JObj [("releases", scenario1_releases)].

(** [c] only appends events to the trace, none of them a line on stdout. *)
Definition quiet {A : Type} (c : M A) : Prop :=
  forall w, exists evs, snd (c w) = after w evs /\ stdout_lines evs = [].

Definition no_flags (docker : string) : args :=
  {| docker_tag := docker; pip := None; npm := None; go := None; gh_commit := None;
     gh_tag := None; gh_release := None; gh_deployment := None; gl_commit := None;
     gl_tag := None; cr := None |}.

Definition with_pip (package : string) (a : args) : args :=
  {| docker_tag := docker_tag a; pip := Some package; npm := npm a; go := go a;
     gh_commit := gh_commit a; gh_tag := gh_tag a; gh_release := gh_release a;
     gh_deployment := gh_deployment a; gl_commit := gl_commit a; gl_tag := gl_tag a;
     cr := cr a |}.

(** The events [evs] request no URL other than [u]. *)
Definition only_requests (u : string) (evs : list event) : Prop :=
  Forall (fun ev => is_request ev = true -> ev = EvRequest u) evs.

(** The spec's claim that the published tags come from exactly one GET. *)
Definition one_get_claim : Prop :=
  forall (repository : string) (w : world),
    repository <> "" -> nreq (snd (get_docker_tags repository w)) = nreq w + 1.

Definition docker_tags_page (names : list string) : json :=
  JObj [("results", JArr (map (fun n => JObj [("name", JStr n)]) names))].

(** A first request that fails transiently, then the tag listing. *)
Definition flaky_world : world :=
  {| net := fun k _ => match k with
                       | O => Raise URLError
                       | _ => Response 200 (Some (docker_tags_page ["3.12"]))
                       end;
     clock_fmt := fun fmt => fmt; trace := [] |}.

Definition docker_url (repository : string) : string :=
  "https://hub.docker.com/v2/repositories/" ^^ repository ^^ "/tags".

(** No provider option is set to a non-empty string. *)
Definition no_provider (a : args) : bool :=
  forallb (fun o => match chosen o with Some _ => false | None => true end)
    [pip a; npm a; go a; gh_commit a; gh_tag a; gh_release a; gh_deployment a;
     gl_commit a; gl_tag a; cr a].

(** The claim that a run with no provider fails before any request. *)
Definition no_provider_claim : Prop :=
  forall (a : args) (w : world), no_provider a = true -> nreq (snd (main a w)) = nreq w.

(** Two transient failures, then the answer [null]. *)
Definition two_failures_world : world :=
  {| net := fun k _ => match k with
                       | O => Raise URLError
                       | S O => Response 503 None
                       | _ => Response 200 (Some JNull)
                       end;
     clock_fmt := fun fmt => fmt; trace := [] |}.

Definition down_world : world :=
  {| net := fun _ _ => Raise URLError; clock_fmt := fun fmt => fmt; trace := [] |}.

Definition gh_commits_page : list json :=
  [JObj [("sha", JStr "c2")]; JObj [("sha", JStr "c1")]].

(** ** Notions for the further properties *)

(** The events of the retry loop of [_urlopen] from attempt [i] on, when
    [k] more attempts follow the current one. *)
Fixpoint retry_events (url : string) (i k : nat) : list event :=
  match k with
  | O => [EvRequest url]
  | S k' =>
      let sleep := (30 * Z.of_nat (S i))%Z in
      EvRequest url :: EvLogSleep sleep :: EvSleep sleep :: retry_events url (S i) k'
  end.

(** Sort keys that Python cannot order against anything. *)
Definition unorderable (k : json) : bool :=
  match k with JNull | JObj _ => true | _ => false end.

(** The names that [_CR_COICES] maps. *)
Definition cron_choices : list string := ["hourly"; "daily"; "weekly"; "monthly"; "yearly"; "annually"].

Definition go_list_url (module : string) : string := "https://proxy.golang.org/" ^^ module ^^ "/@v/list".

Definition go_info_url (module version : string) : string :=
  "https://proxy.golang.org/" ^^ module ^^ "/@v/" ^^ version ^^ ".info".

(** Every request from the [k]-th on is answered with status 200 and a JSON body. *)
Definition serves_json_from (w : world) (k : nat) : Prop :=
  forall j u, k <= j -> exists b, net w j u = Response 200 (Some b).

(** [s] contains the two characters [a] [b] in a row. *)
Fixpoint has_pair (a b : ascii) (s : string) : bool :=
  match s with
  | String c s' =>
      match s' with
      | String d _ => (Ascii.eqb c a && Ascii.eqb d b) || has_pair a b s'
      | EmptyString => false
      end
  | EmptyString => false
  end.

(** The lines of a text body, as [response.text.splitlines()] reads a body
    that is a JSON string. *)
Definition text_lines_of_body (body : option json) : result (list string) :=
  match body with
  | Some (JStr s) => Ok (splitlines s)
  | _ => Err AttributeError
  end.

(** A package-index payload with two kept releases, one of them uploaded
    at an unknown ([null]) time. *)
Definition unordered_pypi : json :=
  JObj [("releases",
         JObj [("1.1.0", JArr [JObj [("yanked", JBool false); ("upload_time_iso_8601", JNull)]]);
               ("1.0.0", JArr [pypi_file false "2020-01-01T00:00:00.000000Z"])])].

Definition newline : string := String "010" "".

(** * Properties *)

Lemma after_nil w : after w [] = w.
Proof. destruct w; unfold after; cbn; rewrite app_nil_r; reflexivity. Qed.

Lemma after_after w l1 l2 : after (after w l1) l2 = after w (l1 ++ l2).
Proof. unfold after; cbn; rewrite app_assoc; reflexivity. Qed.

Lemma nreq_after w l : nreq (after w l) = nreq w + length (requests l).
Proof. unfold nreq, after, requests; cbn. rewrite filter_app, length_app. reflexivity. Qed.

(** One unfolding of the fetcher. *)
Lemma _urlopen_eq u r w :
  _urlopen u r w =
  let w1 := if Nat.eqb _RETRIES r then after w [EvLogUrl u] else w in
  let w2 := after w1 [EvRequest u] in
  match try_response (net w (nreq w1) u) with
  | Ok b => (Ok b, w2)
  | Err e =>
      match r with
      | O => (Err e, w2)
      | S r' =>
          let sl := (30 * (Z.of_nat _RETRIES - Z.of_nat r + 1))%Z in
          _urlopen u r' (after w2 [EvLogSleep sl; EvSleep sl])
      end
  end.
Proof.
  destruct r as [|r]; cbn [_urlopen];
  (destruct (Nat.eqb _RETRIES _); cbn - [try_response Z.of_nat Z.mul Z.add Z.sub _urlopen];
   destruct (try_response _); try reflexivity; unfold after; cbn; rewrite <- ?app_assoc; reflexivity).
Qed.

Lemma fails_try o : fails o = true -> exists e, try_response o = Err e.
Proof.
  destruct o as [st b | e]; unfold fails, try_response; [|eauto].
  rewrite Z.eqb_sym. destruct (Z.eqb 200 st); cbn; intros; [discriminate | eauto].
Qed.

Lemma net_after w l : net (after w l) = net w.
Proof. reflexivity. Qed.

Ltac step_fetch :=
  rewrite _urlopen_eq; cbv zeta; cbn [Nat.eqb _RETRIES];
  rewrite ?after_after, ?nreq_after, ?net_after; cbn [requests filter is_request length app];
  rewrite ?Nat.add_0_r.

(** C3: a fetch whose first two requests fail (an exception or a status
    other than 200) and whose third request succeeds returns the third
    response's body; in between it has slept twice, 30 then 60. *)
Lemma urlopen_retry_law (url : string) (w : world) (b : option json) :
  fails (net w (nreq w) url) = true ->
  fails (net w (nreq w + 1) url) = true ->
  net w (nreq w + 2) url = Response 200 b ->
  urlopen url w =
  (Ok b, after w [EvLogUrl url; EvRequest url; EvLogSleep 30; EvSleep 30;
                  EvRequest url; EvLogSleep 60; EvSleep 60; EvRequest url]).
Proof.
  intros H0 H1 H2.
  apply fails_try in H0 as [e0 H0]. apply fails_try in H1 as [e1 H1].
  unfold urlopen. step_fetch. rewrite H0.
  step_fetch. rewrite H1.
  step_fetch. rewrite H2. reflexivity.
Qed.

(** C7: when every request fails, the fetcher makes the first attempt and
    exactly 3 retries (4 requests, sleeping 30, 60 and 90) and then
    re-raises the exception of the last attempt; no body is returned. *)
Lemma urlopen_exhausted (url : string) (w : world) :
  (forall k, nreq w <= k -> fails (net w k url) = true) ->
  exists e,
    try_response (net w (nreq w + 3) url) = Err e /\
    urlopen url w =
    (Err e, after w [EvLogUrl url; EvRequest url; EvLogSleep 30; EvSleep 30;
                     EvRequest url; EvLogSleep 60; EvSleep 60;
                     EvRequest url; EvLogSleep 90; EvSleep 90; EvRequest url]).
Proof.
  intros H.
  destruct (fails_try _ (H (nreq w) (le_n _))) as [e0 H0].
  destruct (fails_try _ (H (nreq w + 1) ltac:(lia))) as [e1 H1].
  destruct (fails_try _ (H (nreq w + 2) ltac:(lia))) as [e2 H2].
  destruct (fails_try _ (H (nreq w + 3) ltac:(lia))) as [e3 H3].
  exists e3. split; [exact H3|].
  unfold urlopen. step_fetch. rewrite H0.
  step_fetch. rewrite H1.
  step_fetch. rewrite H2.
  step_fetch. rewrite H3. reflexivity.
Qed.

(** C8: the published tags of the empty artifact repository are the empty
    list, and the world is left untouched: no request, no event. *)
Lemma docker_tags_empty (w : world) : get_docker_tags "" w = (Ok [], w).
Proof. reflexivity. Qed.

(** Facts on the single-character string helpers. *)
Lemma append_empty_r s : s ^^ "" = s.
Proof. induction s as [|c s IH]; cbn; [reflexivity | now rewrite IH]. Qed.

Lemma count_char_append c s t : count_char c (s ^^ t) = count_char c s + count_char c t.
Proof. induction s as [|d s IH]; cbn; [reflexivity | rewrite IH; lia]. Qed.

Lemma break_at_some c s a b :
  break_at c s = Some (a, b) -> s = a ^^ String c b /\ count_char c a = 0.
Proof.
  revert a b; induction s as [|d s IH]; intros a b; cbn; [discriminate|].
  destruct (Ascii.eqb c d) eqn:E.
  - intros [= <- <-]. apply Ascii.eqb_eq in E; subst. split; reflexivity.
  - destruct (break_at c s) as [[x y]|] eqn:B; [|discriminate].
    intros [= <- <-]. destruct (IH x y eq_refl) as [-> Hx].
    cbn; rewrite E, Hx. split; reflexivity.
Qed.

Lemma break_at_none c s : count_char c s = 0 -> break_at c s = None.
Proof.
  induction s as [|d s IH]; cbn; [reflexivity|].
  destruct (Ascii.eqb c d); [discriminate|]. intros H; now rewrite IH.
Qed.

Lemma break_at_none_count c s : break_at c s = None -> count_char c s = 0.
Proof.
  induction s as [|d s IH]; cbn; [reflexivity|].
  destruct (Ascii.eqb c d); [discriminate|].
  destruct (break_at c s) as [[x y]|]; [discriminate|]. intros _; now rewrite IH.
Qed.

Lemma break_at_append c s t a b :
  break_at c s = Some (a, b) -> break_at c (s ^^ t) = Some (a, b ^^ t).
Proof.
  revert a b; induction s as [|d s IH]; intros a b; cbn; [discriminate|].
  destruct (Ascii.eqb c d); [now intros [= <- <-]|].
  destruct (break_at c s) as [[x y]|]; [|discriminate].
  intros [= <- <-]. now rewrite (IH x y eq_refl).
Qed.

Lemma break_at_append_none c s t :
  break_at c s = None -> break_at c (s ^^ t) =
  match break_at c t with Some (x, y) => Some (s ^^ x, y) | None => None end.
Proof.
  induction s as [|d s IH]; cbn.
  - intros _. destruct (break_at c t) as [[x y]|]; reflexivity.
  - destruct (Ascii.eqb c d); [discriminate|].
    destruct (break_at c s) as [[x y]|]; [discriminate|].
    intros _. rewrite IH by reflexivity.
    destruct (break_at c t) as [[x y]|]; reflexivity.
Qed.

(** C9: a repository reference with exactly one ['/'] is decomposed into
    itself as "owner/repo" and the empty path. *)
Lemma repository_path_one_slash (repository : string) :
  count_char "/" repository = 1 ->
  _get_repository_path repository = Ok (repository, "").
Proof.
  intros H. unfold _get_repository_path. rewrite H. cbn [Nat.eqb].
  destruct (break_at "/" repository) as [[a b]|] eqn:B.
  - destruct (break_at_some _ _ _ _ B) as [Hs Ha].
    assert (Hb : count_char "/" b = 0).
    { rewrite Hs, count_char_append in H. cbn in H. lia. }
    cbn [split_n]. rewrite (break_at_append _ _ _ _ _ B).
    rewrite (break_at_append_none _ _ _ (break_at_none _ _ Hb)). cbn.
    rewrite append_empty_r, Hs. reflexivity.
  - apply break_at_none_count in B. lia.
Qed.

(** ** Comprehensions over reversed lists *)

Lemma map_r_app {A B : Type} (f : A -> result B) l1 l2 ys1 ys2 :
  map_r f l1 = Ok ys1 -> map_r f l2 = Ok ys2 -> map_r f (l1 ++ l2) = Ok (ys1 ++ ys2).
Proof.
  revert ys1; induction l1 as [|x l1 IH]; intros ys1; cbn.
  - now intros [= <-].
  - destruct (f x); [|discriminate]. destruct (map_r f l1); [|discriminate].
    intros [= <-] H2. now rewrite (IH _ eq_refl H2).
Qed.

Lemma map_r_rev {A B : Type} (f : A -> result B) l ys :
  map_r f l = Ok ys -> map_r f (rev l) = Ok (rev ys).
Proof.
  revert ys; induction l as [|x l IH]; intros ys; cbn.
  - now intros [= <-].
  - destruct (f x) as [y|] eqn:Fx; [|discriminate].
    destruct (map_r f l) as [ys'|]; [|discriminate]. intros [= <-].
    apply map_r_app; [now apply IH | cbn; now rewrite Fx].
Qed.

Lemma py_last_rev {A : Type} (xs : list A) :
  py_last (rev xs) = match xs with x :: _ => Ok x | [] => Err IndexError end.
Proof. unfold py_last. rewrite rev_involutive. now destruct xs. Qed.

Lemma newest_first_rev key l xs :
  map_r (fun result => field result key) l = Ok xs ->
  newest_first key (Some (JArr l)) = Ok (rev xs).
Proof. intros H. unfold newest_first; cbn. now apply map_r_rev. Qed.

Section ListProvider.
Variable url_of : string -> result string.
Variable key : string.
Variable provider : string -> M (list json).
Variable latest : string -> M json.
Hypothesis provider_eq : forall repository,
  provider repository =
  (url <- lift (url_of repository) ;; response <- urlopen url ;;
   lift (newest_first key response)).
Hypothesis latest_eq : forall repository,
  latest repository = (xs <- provider repository ;; lift (py_last xs)).

Lemma list_provider_reverse repository u w w' l xs :
  url_of repository = Ok u ->
  urlopen u w = (Ok (Some (JArr l)), w') ->
  map_r (fun result => field result key) l = Ok xs ->
  provider repository w = (Ok (rev xs), w') /\
  latest repository w = (match xs with x :: _ => Ok x | [] => Err IndexError end, w').
Proof.
  intros Hu Hf Hx.
  assert (Hp : provider repository w = (Ok (rev xs), w')).
  { rewrite provider_eq. cbn [bind Monad_M lift]. rewrite Hu, Hf.
    now rewrite (newest_first_rev _ _ _ Hx). }
  split; [exact Hp|].
  rewrite latest_eq. cbn [bind Monad_M lift]. rewrite Hp. now rewrite py_last_rev.
Qed.
End ListProvider.

(** C5: for the GitHub commits, tags and deployments providers, when the
    response is a list of entries that all have the extracted field, the
    provider returns these fields in reverse order (oldest first), and its
    latest is the field of the first entry of the response (an [IndexError]
    for an empty response). *)
Lemma gh_lists_newest_first (repository u : string) (w w' : world) (l xs : list json) :
  urlopen u w = (Ok (Some (JArr l)), w') ->
  (gh_commits_url repository = Ok u ->
   map_r (fun result => field result "sha") l = Ok xs ->
   get_gh_commits repository w = (Ok (rev xs), w') /\
   get_gh_commit repository w = (match xs with x :: _ => Ok x | [] => Err IndexError end, w')) /\
  (gh_url "/tags" repository = Ok u ->
   map_r (fun result => field result "name") l = Ok xs ->
   get_gh_tags repository w = (Ok (rev xs), w') /\
   get_gh_tag repository w = (match xs with x :: _ => Ok x | [] => Err IndexError end, w')) /\
  (gh_url "/deployments" repository = Ok u ->
   map_r (fun result => field result "sha") l = Ok xs ->
   get_gh_deployments repository w = (Ok (rev xs), w') /\
   get_gh_deployment repository w = (match xs with x :: _ => Ok x | [] => Err IndexError end, w')).
Proof.
  intros Hf. split; [|split]; intros Hu Hx;
    (eapply list_provider_reverse; [ | | exact Hu | exact Hf | exact Hx ];
     intros; reflexivity).
Qed.

Lemma releases_comprehension_ok l v :
  releases_comprehension l = Ok v <->
  exists kept, filter_r published_release l = Ok kept /\
               map_r (fun release => field release "tag_name") kept = Ok v.
Proof.
  revert v; induction l as [|x l IH]; intros v; cbn [releases_comprehension filter_r].
  - split; [intros [= <-]; eauto | intros (k & [= <-] & H); exact H].
  - destruct (published_release x) as [[|]|e] eqn:P.
    + split.
      * destruct (field x "tag_name") as [t|e] eqn:T; [|discriminate].
        destruct (releases_comprehension l) as [ts|e] eqn:R; [|discriminate].
        intros [= <-]. destruct (proj1 (IH ts) eq_refl) as (k & Hk & Hm).
        exists (x :: k). rewrite Hk. split; [reflexivity|]. cbn. now rewrite T, Hm.
      * intros (k & Hk & Hm).
        destruct (filter_r published_release l) as [k'|] eqn:F; [|discriminate].
        injection Hk as <-. cbn [map_r] in Hm.
        destruct (field x "tag_name") as [t|e]; [|discriminate].
        destruct (map_r _ k') as [ts'|] eqn:M'; [|discriminate].
        injection Hm as <-.
        assert (releases_comprehension l = Ok ts') as -> by (apply IH; eauto).
        reflexivity.
    + apply IH.
    + split; [discriminate | intros (k & Hk & _); discriminate].
Qed.

Lemma filter_r_app {A : Type} (p : A -> result bool) l1 l2 k :
  filter_r p (l1 ++ l2) = Ok k <->
  exists k1 k2, filter_r p l1 = Ok k1 /\ filter_r p l2 = Ok k2 /\ k = k1 ++ k2.
Proof.
  revert k; induction l1 as [|x l1 IH]; intros k; cbn [app filter_r].
  - split; [intros H; eauto | intros (k1 & k2 & [= <-] & H & ->); exact H].
  - destruct (p x) as [[|]|e].
    + split.
      * intros H. destruct (filter_r p (l1 ++ l2)) as [r|] eqn:F in H; [|discriminate].
        injection H as <-. destruct (proj1 (IH r) F) as (k1 & k2 & H1 & H2 & ->).
        exists (x :: k1), k2. rewrite H1. auto.
      * intros (k1 & k2 & H1 & H2 & ->).
        destruct (filter_r p l1) as [k1'|] eqn:F1 in H1; [|discriminate].
        injection H1 as <-.
        rewrite (proj2 (IH (k1' ++ k2)) ltac:(eauto)). reflexivity.
    + apply IH.
    + split; [discriminate | intros (k1 & k2 & H1 & _); discriminate].
Qed.

Lemma filter_r_rev {A : Type} (p : A -> result bool) l k :
  filter_r p (rev l) = Ok k <-> exists k', filter_r p l = Ok k' /\ k = rev k'.
Proof.
  revert k; induction l as [|x l IH]; intros k; cbn.
  - split; [intros [= <-]; eauto | intros (k' & [= <-] & ->); reflexivity].
  - rewrite filter_r_app. cbn. split.
    + intros (k1 & k2 & H1 & H2 & ->).
      apply IH in H1 as (k' & H1 & ->). rewrite H1.
      destruct (p x) as [[|]|e]; [injection H2 as <- | injection H2 as <- | discriminate].
      * eexists; split; [reflexivity|]. reflexivity.
      * eexists; split; [reflexivity|]. now rewrite app_nil_r.
    + intros (k' & Hk & ->).
      destruct (p x) as [[|]|e]; [| |discriminate];
        destruct (filter_r p l) as [k''|] eqn:F; try discriminate; injection Hk as <-.
      * exists (rev k''), [x]. split; [apply IH; eauto | split; reflexivity].
      * exists (rev k''), []. split; [apply IH; eauto | split; [reflexivity | now rewrite app_nil_r]].
Qed.

Lemma releases_filtered_before_reversal (l v : list json) :
  gh_releases_of (Some (JArr l)) = Ok v <-> releases_filter_then_reverse l = Ok v.
Proof.
  unfold gh_releases_of, releases_filter_then_reverse; cbn.
  rewrite releases_comprehension_ok. split.
  - intros (k & Hk & Hm). apply filter_r_rev in Hk as (k' & Hk' & ->).
    now rewrite Hk'.
  - destruct (filter_r published_release l) as [k'|] eqn:F; [|discriminate].
    intros Hm. exists (rev k'). split; [apply filter_r_rev; eauto | exact Hm].
Qed.

(** C6: in the releases-list provider, draft and prerelease entries are
    filtered out as if before the reversal to oldest-first: on every
    newest-first response the code succeeds exactly when filtering first
    then reversing succeeds, with the same list; on the spec's fourth
    scenario the provider's latest is ["v2"]. *)
Theorem gh_releases_filter_before_order :
  (forall l v : list json,
     gh_releases_of (Some (JArr l)) = Ok v <-> releases_filter_then_reverse l = Ok v) /\
  (forall (repository u : string) (w w' : world),
     gh_url "/releases" repository = Ok u ->
     urlopen u w = (Ok (Some scenario4_releases), w') ->
     get_gh_release_1 repository w = (Ok (JStr "v2"), w')).
Proof.
  split; [exact releases_filtered_before_reversal|].
  intros repository u w w' Hu Hf.
  unfold get_gh_release_1, get_gh_releases_1. cbn [bind Monad_M lift].
  rewrite Hu, Hf. reflexivity.
Qed.

Lemma gh_releases_filter_before_order_witness :
  gh_url "/releases" "octo/app" = Ok "https://api.github.com/repos/octo/app/releases" /\
  get_gh_release_1 "octo/app" (world_serving scenario4_releases) =
  (Ok (JStr "v2"), snd (urlopen "https://api.github.com/repos/octo/app/releases"
                               (world_serving scenario4_releases))).
Proof.
  split; [reflexivity|].
  apply (proj2 gh_releases_filter_before_order "octo/app"
           "https://api.github.com/repos/octo/app/releases").
  - reflexivity.
  - reflexivity.
Defined.

(** ** The stable sort of [get_pip_versions_2] *)

Lemma insert_by_key_perm x s s' :
  insert_by_key x s = Ok s' -> Permutation s' (x :: s).
Proof.
  revert s'; induction s as [|y s IH]; intros s'; cbn.
  - now intros [= <-].
  - destruct (key_lt (fst y) (fst x)) as [[|]|e]; [| |discriminate].
    + destruct (insert_by_key x s) as [r|e] eqn:I; [|discriminate].
      intros [= <-]. specialize (IH r eq_refl).
      eapply perm_trans; [apply perm_skip, IH | apply perm_swap].
    + now intros [= <-].
Qed.

Lemma insert_by_key_hd y x s s' :
  insert_by_key x s = Ok s' -> HdRel key_le y s -> key_le y x -> HdRel key_le y s'.
Proof.
  destruct s as [|z s]; cbn.
  - intros [= <-] _ Hyx. now constructor.
  - destruct (key_lt (fst z) (fst x)) as [[|]|e]; [| |discriminate].
    + destruct (insert_by_key x s); [|discriminate].
      intros [= <-] Hz _. constructor. now apply HdRel_inv in Hz.
    + intros [= <-] _ Hyx. now constructor.
Qed.

Lemma insert_by_key_sorted x s s' :
  Sorted key_le s -> insert_by_key x s = Ok s' -> Sorted key_le s'.
Proof.
  revert s'; induction s as [|y s IH]; intros s' Hs; cbn.
  - intros [= <-]. repeat constructor.
  - destruct (key_lt (fst y) (fst x)) as [[|]|e] eqn:K; [| |discriminate].
    + destruct (insert_by_key x s) as [r|e] eqn:I; [|discriminate].
      intros [= <-]. apply Sorted_inv in Hs as [Hs Hhd].
      constructor; [now apply IH|].
      eapply insert_by_key_hd; [exact I | exact Hhd |].
      unfold key_le. now left.
    + intros [= <-]. constructor; [exact Hs|]. constructor. now right.
Qed.

Lemma sort_by_key_correct l s :
  sort_by_key l = Ok s -> Permutation s l /\ Sorted key_le s.
Proof.
  revert s; induction l as [|x l IH]; intros s; cbn.
  - intros [= <-]. split; constructor.
  - destruct (sort_by_key l) as [s0|e]; [|discriminate]. intros I.
    destruct (IH s0 eq_refl) as [Hp Hs]. split.
    + eapply perm_trans; [apply (insert_by_key_perm _ _ _ I)|]. now apply perm_skip.
    + exact (insert_by_key_sorted _ _ _ Hs I).
Qed.

Lemma insert_by_key_split x s s' :
  insert_by_key x s = Ok s' ->
  exists s1 s2, s = s1 ++ s2 /\ s' = s1 ++ x :: s2 /\
    Forall (fun z => key_lt (fst z) (fst x) = Ok true) s1.
Proof.
  revert s'; induction s as [|y s IH]; intros s'; cbn.
  - intros [= <-]. now exists [], [].
  - destruct (key_lt (fst y) (fst x)) as [[|]|e] eqn:K; [| |discriminate].
    + destruct (insert_by_key x s) as [r|e] eqn:I; [|discriminate].
      intros [= <-]. destruct (IH r eq_refl) as (s1 & s2 & -> & -> & F).
      exists (y :: s1), s2. auto.
    + intros [= <-]. now exists [], (y :: s).
Qed.

Lemma before_in {A : Type} (x y : A) l : before x y l -> In x l /\ In y l.
Proof. induction 1; cbn; intuition. Qed.

Lemma before_app {A : Type} (x y : A) l1 l2 : before x y l2 -> before x y (l1 ++ l2).
Proof. intros H. induction l1; cbn; [exact H | now constructor]. Qed.

Lemma before_insert {A : Type} (a b z : A) l1 l2 :
  before a b (l1 ++ l2) -> before a b (l1 ++ z :: l2).
Proof.
  induction l1 as [|c l1 IH]; cbn; intros H; [now constructor|].
  inversion H as [l Hin | c' l H']; subst.
  - constructor. apply in_or_app. apply in_app_or in Hin. cbn. tauto.
  - constructor. now apply IH.
Qed.

Lemma before_map {A B : Type} (f : A -> B) x y l : before x y l -> before (f x) (f y) (map f l).
Proof. induction 1; cbn; constructor; [now apply in_map | assumption]. Qed.

Lemma before_map_inv {A B : Type} (f : A -> B) a b l :
  before a b (map f l) -> exists x y, f x = a /\ f y = b /\ before x y l.
Proof.
  induction l as [|c l IH]; cbn; intros H; inversion H as [l' Hin | c' l' H']; subst.
  - apply in_map_iff in Hin as (y & <- & Hy). exists c, y. split; [reflexivity|].
    split; [reflexivity | now constructor].
  - destruct (IH H') as (x & y & <- & <- & Hb). exists x, y. split; [reflexivity|].
    split; [reflexivity | now constructor].
Qed.

(** The sort is stable: an item listed before another whose key is not
    smaller stays before it. *)
Lemma sort_by_key_stable l s x y :
  sort_by_key l = Ok s -> before x y l -> key_lt (fst y) (fst x) = Ok false -> before x y s.
Proof.
  revert s; induction l as [|z l IH]; intros s; cbn; [intros _ H; inversion H|].
  destruct (sort_by_key l) as [s0|e] eqn:S0; [|discriminate]. intros I Hb Hk.
  destruct (insert_by_key_split _ _ _ I) as (s1 & s2 & E0 & -> & F).
  inversion Hb as [l' Hin | z' l' H']; subst.
  - apply (Permutation_in _ (Permutation_sym (proj1 (sort_by_key_correct _ _ S0)))) in Hin.
    apply in_app_or in Hin as [Hin|Hin].
    + rewrite Forall_forall in F. rewrite (F _ Hin) in Hk. discriminate.
    + apply before_app. now constructor.
  - apply before_insert. now apply IH.
Qed.

(** ** The PyPI provider *)

Lemma pip_release_filter_kept releases name b :
  pip_release_filter releases name = Ok b -> release_kept releases name = b.
Proof.
  unfold pip_release_filter, release_kept.
  destruct (getitem releases name) as [rel|e]; cbn [bind Monad_result]; [|discriminate].
  destruct rel as [| x | x | x | xs | kvs]; cbn [truthy];
    try (intros [= <-]; reflexivity).
  - destruct x; [|intros [= <-]; reflexivity]. cbn. discriminate.
  - destruct (Z.eqb x 0); cbn; [intros [= <-]; reflexivity | discriminate].
  - destruct (String.eqb x ""); cbn; [intros [= <-]; reflexivity|].
    destruct x as [|c x]; cbn; discriminate.
  - destruct xs as [|f xs]; cbn; [intros [= <-]; reflexivity|].
    destruct (field f "yanked"); [now intros [= <-] | discriminate].
  - destruct kvs; cbn; [intros [= <-]; reflexivity | discriminate].
Qed.

Lemma filter_r_filter {A : Type} (p : A -> result bool) (f : A -> bool) l k :
  (forall x b, p x = Ok b -> f x = b) -> filter_r p l = Ok k -> k = filter f l.
Proof.
  intros Hpf; revert k; induction l as [|x l IH]; intros k; cbn.
  - now intros [= <-].
  - destruct (p x) as [b|e] eqn:P; [|discriminate].
    rewrite (Hpf _ _ P). destruct b.
    + destruct (filter_r p l) as [k'|]; [|discriminate].
      intros [= <-]. now rewrite (IH k' eq_refl).
    + apply IH.
Qed.

Lemma map_r_forall2 {A B : Type} (f : A -> result B) l ys :
  map_r f l = Ok ys -> Forall2 (fun x y => f x = Ok y) l ys.
Proof.
  revert ys; induction l as [|x l IH]; intros ys; cbn.
  - intros [= <-]. constructor.
  - destruct (f x) as [y|] eqn:F; [|discriminate].
    destruct (map_r f l) as [ys'|]; [|discriminate].
    intros [= <-]. constructor; [exact F | now apply IH].
Qed.

Lemma combine_keys {A B : Type} (R : A -> B -> Prop) l ys :
  Forall2 R l ys ->
  map snd (combine ys l) = l /\ Forall (fun kv => R (snd kv) (fst kv)) (combine ys l).
Proof.
  induction 1 as [|x y l ys Hxy _ [IH1 IH2]]; cbn; [split; constructor|].
  rewrite IH1. split; [reflexivity | now constructor].
Qed.

Lemma sorted_map_snd releases s :
  Sorted key_le s ->
  Forall (fun kv => pip_release_key releases (snd kv) = Ok (fst kv)) s ->
  Sorted (upload_order releases) (map snd s).
Proof.
  induction s as [|x s IH]; intros Hs Hf; cbn; [constructor|].
  apply Sorted_inv in Hs as [Hs Hhd]. inversion Hf as [|? ? Hx Hf']; subst.
  constructor; [now apply IH|].
  destruct s as [|y s]; cbn; constructor.
  apply HdRel_inv in Hhd. inversion Hf' as [|? ? Hy _]; subst.
  exists (fst x), (fst y). auto.
Qed.

(** C4 (as amended): on a PyPI payload the provider lists exactly the
    releases whose file list is non-empty and whose first file is not
    marked yanked (up to order), never a yanked one, sorted ascending by the
    first file's ["upload_time_iso_8601"], and stably: a kept release that
    comes before another in the payload, whose upload time is not smaller,
    stays before it; its latest is the last element. *)
Theorem pip_versions_kept_and_sorted (response : option json) (d releases : json)
    (names vs : list json) :
  response = Some d ->
  field d "releases" = Ok releases ->
  py_iter releases = Ok names ->
  pip_versions_of response = Ok vs ->
  Permutation vs (filter (release_kept releases) names) /\
  (forall v, In v vs -> release_kept releases v = true) /\
  Sorted (upload_order releases) vs /\
  (forall a b ta tb,
     before a b (filter (release_kept releases) names) ->
     pip_release_key releases a = Ok ta -> pip_release_key releases b = Ok tb ->
     key_lt tb ta = Ok false -> before a b vs) /\
  (forall (package : string) (w w' : world),
     urlopen ("https://pypi.org/pypi/" ^^ package ^^ "/json") w = (Ok response, w') ->
     get_pip_version package w = (py_last vs, w')).
Proof.
  intros -> Hr Hn Hv.
  assert (Hsort : Permutation vs (filter (release_kept releases) names) /\
                  Sorted (upload_order releases) vs /\
                  (forall a b ta tb,
                     before a b (filter (release_kept releases) names) ->
                     pip_release_key releases a = Ok ta -> pip_release_key releases b = Ok tb ->
                     key_lt tb ta = Ok false -> before a b vs)).
  { unfold pip_versions_of in Hv; cbn [loads bind Monad_result] in Hv.
    rewrite Hr, Hn in Hv.
    destruct (filter_r (pip_release_filter releases) names) as [versions|] eqn:F;
      [|discriminate].
    destruct (map_r (pip_release_key releases) versions) as [keys|] eqn:K; [|discriminate].
    destruct (sort_by_key (combine keys versions)) as [sorted|] eqn:S; [|discriminate].
    injection Hv as <-.
    pose proof (filter_r_filter _ _ _ _ (pip_release_filter_kept releases) F) as ->.
    destruct (combine_keys _ _ _ (map_r_forall2 _ _ _ K)) as [Hsnd Hall].
    destruct (sort_by_key_correct _ _ S) as [Hp Hs]. split; [|split].
    - rewrite <- Hsnd. now apply Permutation_map.
    - apply sorted_map_snd; [exact Hs|].
      eapply Permutation_Forall; [apply Permutation_sym, Hp | exact Hall].
    - intros a b ta tb Hb Ha Hb' Hk. rewrite <- Hsnd in Hb.
      apply before_map_inv in Hb as (x & y & <- & <- & Hxy).
      destruct (before_in _ _ _ Hxy) as [Hx Hy].
      rewrite Forall_forall in Hall.
      pose proof (Hall x Hx) as Ex. pose proof (Hall y Hy) as Ey. cbn beta in Ex, Ey.
      rewrite Ha in Ex. rewrite Hb' in Ey. injection Ex as Ex. injection Ey as Ey.
      rewrite Ex, Ey in Hk.
      apply before_map. exact (sort_by_key_stable _ _ _ _ S Hxy Hk). }
  destruct Hsort as (Hp & Hs & Hst).
  split; [exact Hp|]. split; [|split; [exact Hs | split; [exact Hst|]]].
  - intros v Hin. eapply Permutation_in in Hin; [|exact Hp].
    now apply filter_In in Hin as [_ ?].
  - intros package w w' Hf.
    unfold get_pip_version, get_pip_version_2, get_pip_versions_2.
    cbn [bind Monad_M lift]. now rewrite Hf, Hv.
Qed.

Lemma pip_versions_kept_and_sorted_witness :
  pip_versions_of (Some scenario1_pypi) = Ok [JStr "1.0.0"; JStr "1.1.0"] /\
  Sorted (upload_order scenario1_releases) [JStr "1.0.0"; JStr "1.1.0"].
Proof.
  split; [reflexivity|].
  exact (proj1 (proj2 (proj2
    (pip_versions_kept_and_sorted (Some scenario1_pypi) scenario1_pypi scenario1_releases
       [JStr "1.1.0"; JStr "1.0.0"] [JStr "1.0.0"; JStr "1.1.0"]
       ltac:(reflexivity) ltac:(reflexivity) ltac:(reflexivity) ltac:(reflexivity))))).
Defined.

(** A release with an empty file list is not marked yanked, yet it is
    dropped from the provider's list. *)
(** C4 counterexample: a release with an empty file list is not marked
    yanked, yet it is dropped from the provider's list. *)
Lemma pip_versions_drop_release_without_files :
  let releases := JObj [("1.0.0", JArr []);
                        ("1.1.0", JArr [pypi_file false "2021-06-01T00:00:00.000000Z"])] in
  getitem releases (JStr "1.0.0") = Ok (JArr []) /\
  pip_versions_of (Some (JObj [("releases", releases)])) = Ok [JStr "1.1.0"].
Proof. split; reflexivity. Qed.

(** ** Computations that write nothing to stdout *)

Lemma stdout_lines_app l1 l2 : stdout_lines (l1 ++ l2) = stdout_lines l1 ++ stdout_lines l2.
Proof. unfold stdout_lines. now rewrite flat_map_app. Qed.

Lemma quiet_ret {A : Type} (a : A) : quiet (ret a).
Proof. intros w. exists []. now rewrite after_nil. Qed.

Lemma quiet_raise {A : Type} (e : exn) : quiet (@raise A e).
Proof. intros w. exists []. now rewrite after_nil. Qed.

Lemma quiet_lift {A : Type} (r : result A) : quiet (lift r).
Proof. intros w. exists []. now rewrite after_nil. Qed.

Lemma quiet_emit ev : (forall l, ev <> EvStdout l) -> quiet (emit ev).
Proof. intros H w. exists [ev]. split; [reflexivity|]. destruct ev; cbn; auto. now destruct (H line). Qed.

Lemma quiet_http_get u : quiet (http_get u).
Proof. intros w. now exists [EvRequest u]. Qed.

Lemma quiet_strftime_now fmt : quiet (strftime_now fmt).
Proof. intros w. exists []. now rewrite after_nil. Qed.

Lemma quiet_bind {A B : Type} (c : M A) (k : A -> M B) :
  quiet c -> (forall a, quiet (k a)) -> quiet (bind c k).
Proof.
  intros Hc Hk w. cbn [bind Monad_M].
  destruct (Hc w) as (evs1 & H1 & S1).
  destruct (c w) as [[a|e] w1]; cbn in H1; subst w1.
  - destruct (Hk a (after w evs1)) as (evs2 & H2 & S2).
    exists (evs1 ++ evs2). rewrite H2, after_after, stdout_lines_app, S1, S2. auto.
  - exists evs1. auto.
Qed.

Ltac quiet_tac :=
  repeat match goal with
  | |- quiet (bind _ _) => apply quiet_bind; intros
  | |- quiet (ret _) => apply quiet_ret
  | |- quiet (raise _) => apply quiet_raise
  | |- quiet (lift _) => apply quiet_lift
  | |- quiet (emit _) => apply quiet_emit; intros ? ?; discriminate
  | |- quiet (http_get _) => apply quiet_http_get
  | |- quiet (strftime_now _) => apply quiet_strftime_now
  | |- quiet (if ?b then _ else _) => destruct b
  | |- quiet (match ?x with _ => _ end) => destruct x
  end.

Lemma quiet_urlopen u r : quiet (_urlopen u r).
Proof. induction r as [|r IH]; cbn [_urlopen]; quiet_tac; exact IH. Qed.

Lemma quiet_get_docker_tags repository : quiet (get_docker_tags repository).
Proof. unfold get_docker_tags, urlopen. quiet_tac; apply quiet_urlopen. Qed.

Lemma quiet_select_tag a : quiet (select_tag a).
Proof.
  unfold select_tag, get_pip_version, get_pip_version_2, get_pip_versions_2,
    get_npm_version, get_npm_version_1, get_go_version, get_go_version_1,
    get_gh_commit, get_gh_commits, get_gh_tag, get_gh_tags,
    get_gh_release, get_gh_release_2, get_gh_deployment, get_gh_deployments,
    get_gl_commit, get_gl_commits, get_gl_tag, get_gl_tags, _get_gl_repository,
    get_cron_tag, urlopen.
  quiet_tac; apply quiet_urlopen.
Qed.

(** A run of [main] once both the published tags and the version are known. *)
Lemma main_run (a : args) (w w1 w2 : world) (tags : list json) (tag : json) :
  get_docker_tags (docker_tag a) w = (Ok tags, w1) ->
  select_tag a w1 = (Ok tag, w2) ->
  main a w = (Ok tt, if py_in tag tags then w2 else after w2 [EvStdout ("tag=" ^^ py_str tag)]) /\
  exists evs, w2 = after w evs /\ stdout_lines evs = [].
Proof.
  intros H1 H2. split.
  - unfold main. cbn [bind Monad_M]. rewrite H1, H2.
    destruct (py_in tag tags); reflexivity.
  - destruct (quiet_get_docker_tags (docker_tag a) w) as (evs1 & E1 & S1).
    destruct (quiet_select_tag a w1) as (evs2 & E2 & S2).
    rewrite H1 in E1. rewrite H2 in E2. cbn in E1, E2. subst w1 w2.
    exists (evs1 ++ evs2). rewrite after_after, stdout_lines_app, S1, S2. auto.
Qed.

Lemma main_run_stdout (a : args) (w w1 w2 : world) (tags : list json) (tag : json) :
  get_docker_tags (docker_tag a) w = (Ok tags, w1) ->
  select_tag a w1 = (Ok tag, w2) ->
  exists w', main a w = (Ok tt, w') /\
    stdout_lines (trace w') =
    stdout_lines (trace w) ++ (if py_in tag tags then [] else ["tag=" ^^ py_str tag]).
Proof.
  intros H1 H2. destruct (main_run a w w1 w2 tags tag H1 H2) as [Hm (evs & -> & Hs)].
  eexists; split; [exact Hm|].
  destruct (py_in tag tags); cbn; rewrite !stdout_lines_app, Hs; cbn;
    now rewrite ?app_nil_r.
Qed.

(** C2: when both the published tags and the version are obtained, [main]
    succeeds and writes to stdout exactly one line [tag=<version>] if the
    version is not among the published tags, and nothing otherwise. *)
Theorem main_output (a : args) (w w1 w2 : world) (tags : list json) (tag : json) :
  get_docker_tags (docker_tag a) w = (Ok tags, w1) ->
  select_tag a w1 = (Ok tag, w2) ->
  exists w', main a w = (Ok tt, w') /\
    stdout_lines (trace w') =
    stdout_lines (trace w) ++ (if py_in tag tags then [] else ["tag=" ^^ py_str tag]).
Proof. exact (main_run_stdout a w w1 w2 tags tag). Qed.

Lemma main_output_witness :
  let a := with_pip "foo" (no_flags "") in
  let w := world_serving scenario1_pypi in
  exists w', main a w = (Ok tt, w') /\
    stdout_lines (trace w') = stdout_lines (trace w) ++ ["tag=1.1.0"].
Proof.
  exact (main_output (with_pip "foo" (no_flags "")) (world_serving scenario1_pypi)
           (world_serving scenario1_pypi)
           (snd (select_tag (with_pip "foo" (no_flags "")) (world_serving scenario1_pypi)))
           [] (JStr "1.1.0") ltac:(reflexivity) ltac:(reflexivity)).
Defined.

(** ** Requests of the fetcher *)

Lemma only_requests_app u l1 l2 :
  only_requests u l1 -> only_requests u l2 -> only_requests u (l1 ++ l2).
Proof. intros; now apply Forall_app. Qed.

Lemma log_prefix u (b : bool) w :
  exists l, (if b then after w [EvLogUrl u] else w) = after w l /\
            only_requests u l /\ requests l = [].
Proof.
  destruct b; [exists [EvLogUrl u] | exists []; rewrite after_nil];
    (split; [reflexivity | split; [repeat constructor; discriminate | reflexivity]]).
Qed.

Lemma _urlopen_requests u r w :
  exists evs, snd (_urlopen u r w) = after w evs /\ only_requests u evs /\
              length (requests evs) <= S r.
Proof.
  revert w; induction r as [|r IH]; intros w; rewrite _urlopen_eq; cbv zeta.
  all: match goal with |- context [if Nat.eqb _RETRIES ?n then _ else _] =>
         destruct (log_prefix u (Nat.eqb _RETRIES n) w) as (l & E & Hl & Rl); rewrite E
       end.
  all: destruct (try_response _) as [b|e]; cbn [snd].
  1, 2, 3: exists (l ++ [EvRequest u]); rewrite after_after; (split; [reflexivity|]);
    (split; [apply only_requests_app; [exact Hl | repeat constructor]|]);
    unfold requests in *; rewrite filter_app, Rl; cbn; lia.
  set (sl := (30 * (Z.of_nat _RETRIES - Z.of_nat (S r) + 1))%Z).
  destruct (IH (after (after (after w l) [EvRequest u]) [EvLogSleep sl; EvSleep sl]))
    as (evs & E2 & Ho & Hn).
  rewrite E2, !after_after.
  exists (l ++ [EvRequest u] ++ [EvLogSleep sl; EvSleep sl] ++ evs).
  rewrite <- ?app_assoc. split; [reflexivity|]. split.
  - apply only_requests_app; [exact Hl|].
    apply (only_requests_app u [EvRequest u]); [repeat constructor|].
    apply (only_requests_app u [EvLogSleep sl; EvSleep sl]); [|exact Ho].
    repeat constructor; discriminate.
  - unfold requests in *. rewrite !filter_app, Rl. cbn [filter is_request length app]. lia.
Qed.

(** C10 counterexample: when the first request to Docker Hub fails
    transiently, the published tags are obtained with two GET requests. *)
Lemma docker_tags_retry_two_gets :
  get_docker_tags "library/python" flaky_world =
    (Ok [JStr "3.12"], snd (get_docker_tags "library/python" flaky_world)) /\
  nreq (snd (get_docker_tags "library/python" flaky_world)) = 2 /\
  ~ one_get_claim.
Proof.
  split; [reflexivity|]. split; [reflexivity|].
  intros H. specialize (H "library/python" flaky_world ltac:(discriminate)).
  vm_compute in H. discriminate.
Qed.

(** C10 (as amended): for a non-empty artifact repository, every request of
    [get_docker_tags] is to the one tag-listing URL (at most 4 attempts, no
    other page); when the fetch yields a response, the tags are exactly the
    ["name"] fields of its ["results"], in order, and a version missing from
    them is printed as novel by [main]. *)
Theorem docker_tags_single_listing (repository : string) (w : world) :
  repository <> "" ->
  (exists evs, snd (get_docker_tags repository w) = after w evs /\
               only_requests (docker_url repository) evs /\ length (requests evs) <= 4) /\
  (forall (w' : world) (d results : json) (items names : list json),
     urlopen (docker_url repository) w = (Ok (Some d), w') ->
     field d "results" = Ok results ->
     py_iter results = Ok items ->
     map_r (fun result => field result "name") items = Ok names ->
     get_docker_tags repository w = (Ok names, w') /\
     (forall (a : args) (tag : json) (w2 : world),
        docker_tag a = repository ->
        select_tag a w' = (Ok tag, w2) ->
        py_in tag names = false ->
        exists w3, main a w = (Ok tt, w3) /\
                   stdout_lines (trace w3) = stdout_lines (trace w) ++ ["tag=" ^^ py_str tag])).
Proof.
  intros Hne.
  assert (Hd : get_docker_tags repository w =
               (r <- urlopen (docker_url repository) ;;
                lift (d <- loads r ;; results <- field d "results" ;;
                      items <- py_iter results ;;
                      map_r (fun result => field result "name") items)) w).
  { unfold get_docker_tags. apply String.eqb_neq in Hne. now rewrite Hne. }
  split.
  - destruct (_urlopen_requests (docker_url repository) _RETRIES w) as (evs & E & Ho & Hl).
    exists evs. split; [|split; [exact Ho | exact Hl]].
    rewrite Hd. cbn [bind Monad_M]. unfold urlopen in *.
    destruct (_urlopen (docker_url repository) _RETRIES w) as [[b|e] w1]; exact E.
  - intros w' d results items names Hf Hr Hi Hn.
    assert (Hg : get_docker_tags repository w = (Ok names, w')).
    { rewrite Hd. cbn [bind Monad_M]. rewrite Hf. cbn [lift loads bind Monad_result].
      now rewrite Hr, Hi, Hn. }
    split; [exact Hg|].
    intros a tag w2 Ha Hs Hin. subst repository.
    destruct (main_run_stdout a w w' w2 names tag Hg Hs) as (w3 & Hm & Ho).
    rewrite Hin in Ho. eauto.
Qed.

Lemma docker_tags_single_listing_witness :
  exists evs,
    snd (get_docker_tags "library/python" (world_serving (docker_tags_page ["3.12"]))) =
      after (world_serving (docker_tags_page ["3.12"])) evs /\
    only_requests (docker_url "library/python") evs /\ length (requests evs) <= 4.
Proof.
  exact (proj1 (docker_tags_single_listing "library/python"
                  (world_serving (docker_tags_page ["3.12"])) ltac:(discriminate))).
Defined.

(** ** Runs without a provider *)

Lemma select_tag_no_provider a :
  no_provider a = true -> select_tag a = raise NotImplementedError.
Proof.
  unfold no_provider, select_tag. cbn [forallb].
  repeat match goal with
         | |- context [chosen ?o] => destruct (chosen o); cbn [andb]; [discriminate|]
         end.
  reflexivity.
Qed.

(** C1 (as amended): with no provider option set, [main] first fetches the
    published tags and then raises [NotImplementedError] (or the error of the
    tag fetch); only with an empty artifact repository is the error raised
    without any request. *)
Theorem main_without_provider (a : args) (w : world) :
  no_provider a = true ->
  main a w = match get_docker_tags (docker_tag a) w with
             | (Ok _, w1) => (Err NotImplementedError, w1)
             | (Err e, w1) => (Err e, w1)
             end /\
  (docker_tag a = "" -> main a w = (Err NotImplementedError, w)).
Proof.
  intros H.
  assert (Hm : main a w = match get_docker_tags (docker_tag a) w with
                          | (Ok _, w1) => (Err NotImplementedError, w1)
                          | (Err e, w1) => (Err e, w1)
                          end).
  { unfold main. cbn [bind Monad_M]. rewrite (select_tag_no_provider a H).
    destruct (get_docker_tags (docker_tag a) w) as [[t|e] w1]; reflexivity. }
  split; [exact Hm|].
  intros Hd. rewrite Hm, Hd. reflexivity.
Qed.

Lemma main_without_provider_witness :
  main (no_flags "") (world_serving (JObj [])) = (Err NotImplementedError, (world_serving (JObj []))).
Proof.
  exact (proj2 (main_without_provider (no_flags "") (world_serving (JObj []))
                  ltac:(reflexivity)) ltac:(reflexivity)).
Defined.

(** C1 counterexample: with no provider and a non-empty artifact
    repository, one request is made before [NotImplementedError]. *)
Lemma main_without_provider_fetches_tags_first :
  fst (main (no_flags "library/python") (world_serving (docker_tags_page ["3.12"]))) =
    Err NotImplementedError /\
  nreq (snd (main (no_flags "library/python") (world_serving (docker_tags_page ["3.12"])))) = 1 /\
  ~ no_provider_claim.
Proof.
  split; [reflexivity|]. split; [reflexivity|].
  intros H. specialize (H (no_flags "library/python") (world_serving (docker_tags_page ["3.12"]))
                          ltac:(reflexivity)).
  vm_compute in H. discriminate.
Qed.

(** ** Witnesses *)

Lemma urlopen_retry_law_witness :
  urlopen "https://pypi.org/pypi/foo/json" two_failures_world =
  (Ok (Some JNull),
   after two_failures_world
     [EvLogUrl "https://pypi.org/pypi/foo/json"; EvRequest "https://pypi.org/pypi/foo/json";
      EvLogSleep 30; EvSleep 30; EvRequest "https://pypi.org/pypi/foo/json";
      EvLogSleep 60; EvSleep 60; EvRequest "https://pypi.org/pypi/foo/json"]).
Proof.
  apply urlopen_retry_law; reflexivity.
Defined.

Lemma urlopen_exhausted_witness :
  exists e,
    try_response (net down_world (nreq down_world + 3) "https://pypi.org/pypi/foo/json") = Err e /\
    urlopen "https://pypi.org/pypi/foo/json" down_world =
    (Err e, after down_world
       [EvLogUrl "https://pypi.org/pypi/foo/json"; EvRequest "https://pypi.org/pypi/foo/json";
        EvLogSleep 30; EvSleep 30; EvRequest "https://pypi.org/pypi/foo/json";
        EvLogSleep 60; EvSleep 60; EvRequest "https://pypi.org/pypi/foo/json";
        EvLogSleep 90; EvSleep 90; EvRequest "https://pypi.org/pypi/foo/json"]).
Proof.
  apply urlopen_exhausted. intros k _. reflexivity.
Defined.

Lemma repository_path_one_slash_witness :
  _get_repository_path "octo/app" = Ok ("octo/app", "").
Proof.
  apply repository_path_one_slash. reflexivity.
Defined.

Lemma gh_lists_newest_first_witness :
  get_gh_commits "octo/app" (world_serving (JArr gh_commits_page)) =
    (Ok [JStr "c1"; JStr "c2"],
     snd (urlopen "https://api.github.com/repos/octo/app/commits?sha=&path="
                  (world_serving (JArr gh_commits_page)))) /\
  get_gh_commit "octo/app" (world_serving (JArr gh_commits_page)) =
    (Ok (JStr "c2"),
     snd (urlopen "https://api.github.com/repos/octo/app/commits?sha=&path="
                  (world_serving (JArr gh_commits_page)))).
Proof.
  exact (proj1 (gh_lists_newest_first "octo/app"
                  "https://api.github.com/repos/octo/app/commits?sha=&path="
                  (world_serving (JArr gh_commits_page))
                  (snd (urlopen "https://api.github.com/repos/octo/app/commits?sha=&path="
                                (world_serving (JArr gh_commits_page))))
                  gh_commits_page [JStr "c2"; JStr "c1"] ltac:(reflexivity))
               ltac:(reflexivity) ltac:(reflexivity)).
Defined.

(** * Further properties of the module *)

(** ** Repository references *)

Lemma str_append_assoc s t u : (s ^^ t) ^^ u = s ^^ t ^^ u.
Proof. induction s as [|c s IH]; cbn; [reflexivity | now rewrite IH]. Qed.

Lemma contains_count c s : contains c s = negb (Nat.eqb (count_char c s) 0).
Proof.
  unfold contains. destruct (break_at c s) as [[a b]|] eqn:B.
  - destruct (break_at_some _ _ _ _ B) as [-> _].
    rewrite count_char_append; cbn. rewrite Ascii.eqb_refl. now destruct (count_char c a).
  - now rewrite (break_at_none_count _ _ B).
Qed.

Lemma break_at_first c a b : count_char c a = 0 -> break_at c (a ^^ String c b) = Some (a, b).
Proof.
  intros H. rewrite (break_at_append_none _ _ _ (break_at_none _ _ H)); cbn.
  rewrite Ascii.eqb_refl, append_empty_r. reflexivity.
Qed.

Lemma split_once_first c a b :
  count_char c a = 0 -> split_n c 1 (a ^^ String c b) = [a; b].
Proof. intros H. cbn [split_n]. now rewrite break_at_first. Qed.

Lemma base_default repository default_base :
  count_char "@" repository = 0 ->
  _get_repository_base repository default_base = Ok (repository, default_base).
Proof.
  intros H. unfold _get_repository_base, _SEP_BASE. rewrite contains_count, H.
  cbn [negb Nat.eqb String.append]. now rewrite (split_once_first _ _ _ H).
Qed.

Lemma base_first default_base r b :
  count_char "@" r = 0 -> _get_repository_base (r ^^ "@" ^^ b) default_base = Ok (r, b).
Proof.
  intros H. unfold _get_repository_base, _SEP_BASE. rewrite contains_count.
  rewrite count_char_append, H; cbn [String.append count_char]. rewrite Ascii.eqb_refl.
  cbn [Nat.add Nat.eqb negb]. now rewrite (split_once_first _ _ _ H).
Qed.

Lemma branch_default repository :
  count_char ":" repository = 0 -> _get_repository_branch repository = Ok (repository, "").
Proof.
  intros H. unfold _get_repository_branch, _SEP_BRANCH, _DEFAULT_BRANCH. rewrite contains_count, H.
  cbn [negb Nat.eqb String.append]. now rewrite (split_once_first _ _ _ H).
Qed.

Lemma branch_first r b :
  count_char ":" r = 0 -> _get_repository_branch (r ^^ ":" ^^ b) = Ok (r, b).
Proof.
  intros H. unfold _get_repository_branch, _SEP_BRANCH, _DEFAULT_BRANCH. rewrite contains_count.
  rewrite count_char_append, H; cbn [String.append count_char]. rewrite Ascii.eqb_refl.
  cbn [Nat.add Nat.eqb negb]. now rewrite (split_once_first _ _ _ H).
Qed.

Lemma path_split (owner repo path : string) :
  count_char "/" owner = 0 -> count_char "/" repo = 0 ->
  _get_repository_path (owner ^^ "/" ^^ repo ^^ "/" ^^ path) = Ok (owner ^^ "/" ^^ repo, path).
Proof.
  intros Ho Hr. unfold _get_repository_path.
  rewrite !count_char_append, Ho, Hr; cbn [String.append count_char]. rewrite Ascii.eqb_refl.
  cbn [Nat.add Nat.eqb]. cbn [split_n].
  rewrite (break_at_first _ _ _ Ho), (break_at_first _ _ _ Hr). reflexivity.
Qed.

Lemma path_no_slash (repository : string) :
  count_char "/" repository = 0 -> _get_repository_path repository = Err ValueError.
Proof.
  intros H. unfold _get_repository_path. rewrite H. cbn [Nat.eqb split_n].
  now rewrite (break_at_none _ _ H).
Qed.

(** X1: [_get_repository_base] (and so [_get_gh_repository_base] and
    [_get_gl_repository_base]) cuts a reference at its first ['@']: the part
    before is the repository, the rest (which may hold more ['@']) is the
    base; without any ['@'] the base is the default one. *)
Theorem repository_base_first_at (default_base repository r b : string) :
  (count_char "@" repository = 0 ->
   _get_repository_base repository default_base = Ok (repository, default_base)) /\
  (count_char "@" r = 0 -> _get_repository_base (r ^^ "@" ^^ b) default_base = Ok (r, b)).
Proof. split; [apply base_default | apply base_first]. Qed.

(** X2: [_get_repository_branch] cuts a reference at its first [':']: the
    part before is the repository, the rest is the branch; without any [':']
    the branch is empty. *)
Theorem repository_branch_first_colon (repository r b : string) :
  (count_char ":" repository = 0 -> _get_repository_branch repository = Ok (repository, "")) /\
  (count_char ":" r = 0 -> _get_repository_branch (r ^^ ":" ^^ b) = Ok (r, b)).
Proof. split; [apply branch_default | apply branch_first]. Qed.

(** X3: [_get_repository_path] raises [ValueError] on a reference without
    ['/']; on [owner/repo/path] it returns ["owner/repo"] and [path], which
    keeps every further ['/']. *)
Theorem repository_path_parts (repository owner repo path : string) :
  (count_char "/" repository = 0 -> _get_repository_path repository = Err ValueError) /\
  (count_char "/" owner = 0 -> count_char "/" repo = 0 ->
   _get_repository_path (owner ^^ "/" ^^ repo ^^ "/" ^^ path) = Ok (owner ^^ "/" ^^ repo, path)).
Proof. split; [apply path_no_slash | apply path_split]. Qed.

(** X4: the commits URL of [get_gh_commits] for the reference
    [owner/repo/path:branch@base]: the base is split off first, then the
    branch, then the path, so the base may hold [':'] and ['/'] and the
    path may hold ['/']. *)
Theorem gh_commits_url_parts (owner repo path branch base : string) :
  count_char "/" owner = 0 -> count_char "/" repo = 0 ->
  count_char ":" owner = 0 -> count_char ":" repo = 0 -> count_char ":" path = 0 ->
  count_char "@" owner = 0 -> count_char "@" repo = 0 -> count_char "@" path = 0 ->
  count_char "@" branch = 0 ->
  gh_commits_url (owner ^^ "/" ^^ repo ^^ "/" ^^ path ^^ ":" ^^ branch ^^ "@" ^^ base) =
  Ok (base ^^ "/repos/" ^^ owner ^^ "/" ^^ repo ^^ "/commits?sha=" ^^ branch ^^ "&path=" ^^ path).
Proof.
  intros Os Rs Oc Rc Pc Oa Ra Pa Ba.
  unfold gh_commits_url, _get_gh_repository_base.
  assert (E1 : owner ^^ "/" ^^ repo ^^ "/" ^^ path ^^ ":" ^^ branch ^^ "@" ^^ base =
               (owner ^^ "/" ^^ repo ^^ "/" ^^ path ^^ ":" ^^ branch) ^^ "@" ^^ base)
    by now rewrite !str_append_assoc.
  rewrite E1, base_first by (rewrite !count_char_append, Oa, Ra, Pa, Ba; reflexivity).
  cbn [bind Monad_result].
  assert (E2 : owner ^^ "/" ^^ repo ^^ "/" ^^ path ^^ ":" ^^ branch =
               (owner ^^ "/" ^^ repo ^^ "/" ^^ path) ^^ ":" ^^ branch)
    by now rewrite !str_append_assoc.
  rewrite E2, branch_first by (rewrite !count_char_append, Oc, Rc, Pc; reflexivity).
  cbn [bind Monad_result]. rewrite (path_split _ _ _ Os Rs). cbn [ret Monad_result].
  now rewrite !str_append_assoc.
Qed.

Lemma try_fails_err o e : try_response o = Err e -> fails o = true.
Proof.
  destruct o as [st b | e']; unfold try_response, fails; [|reflexivity].
  destruct (Z.eqb_spec 200 st) as [<-|Hne]; [intros H; discriminate H|].
  intros _. rewrite (proj2 (Z.eqb_neq st 200)) by congruence. reflexivity.
Qed.

Lemma try_fails_ok o b : try_response o = Ok b -> fails o = false.
Proof.
  destruct o as [st b' | e']; unfold try_response, fails; [|intros H; discriminate H].
  destruct (Z.eqb_spec 200 st) as [<-|Hne]; [reflexivity | intros H; discriminate H].
Qed.

Lemma _urlopen_attempts u r w :
  r <= _RETRIES ->
  exists k, k <= r /\
    (forall j, j < k -> fails (net w (nreq w + j) u) = true) /\
    (k < r -> fails (net w (nreq w + k) u) = false) /\
    _urlopen u r w =
      (try_response (net w (nreq w + k) u),
       after w ((if Nat.eqb _RETRIES r then [EvLogUrl u] else []) ++
                retry_events u (_RETRIES - r) k)).
Proof.
  revert w; induction r as [|r IH]; intros w Hr; rewrite _urlopen_eq; cbv zeta.
  - exists 0. cbn [Nat.eqb _RETRIES app retry_events]. rewrite Nat.add_0_r.
    split; [lia|]. split; [intros; lia|]. split; [intros; lia|].
    destruct (try_response _); reflexivity.
  - assert (Hl : exists l, (if Nat.eqb _RETRIES (S r) then after w [EvLogUrl u] else w) = after w l /\
                 l = (if Nat.eqb _RETRIES (S r) then [EvLogUrl u] else []) /\ nreq (after w l) = nreq w).
    { destruct (Nat.eqb _RETRIES (S r)); [exists [EvLogUrl u] | exists []];
        (split; [rewrite ?after_nil; reflexivity | split; [reflexivity|]]);
        rewrite nreq_after; cbn; lia. }
    destruct Hl as (l & E & El & Nl). rewrite E, Nl, <- El.
    destruct (try_response (net w (nreq w) u)) as [b|e] eqn:T.
    + exists 0. rewrite Nat.add_0_r, T, after_after. split; [lia|].
      split; [intros; lia|]. split; [intros _; exact (try_fails_ok _ _ T)|].
      reflexivity.
    + set (sl := (30 * (Z.of_nat _RETRIES - Z.of_nat (S r) + 1))%Z).
      set (w3 := after (after (after w l) [EvRequest u]) [EvLogSleep sl; EvSleep sl]).
      destruct (IH w3 ltac:(lia)) as (k & Hk & Hf & Hs & Hc).
      assert (N3 : nreq w3 = S (nreq w)).
      { unfold w3. rewrite nreq_after in Nl. rewrite !nreq_after, Nl. cbn. lia. }
      assert (Net3 : net w3 = net w) by reflexivity.
      rewrite N3, Net3 in *.
      exists (S k). split; [lia|]. split.
      { intros [|j] Hj; [rewrite Nat.add_0_r; exact (try_fails_err _ _ T)|].
        rewrite <- (Hf j ltac:(lia)). f_equal. f_equal. lia. }
      split; [intros Hk'; rewrite <- (Hs ltac:(lia)); f_equal; f_equal; lia|].
      rewrite Hc. f_equal; [f_equal; f_equal; lia|].
      unfold w3. rewrite !after_after. f_equal.
      assert (Hne : Nat.eqb _RETRIES r = false) by (apply Nat.eqb_neq; unfold _RETRIES in *; lia).
      rewrite Hne, El. cbn [app].
      replace (_RETRIES - r) with (S (_RETRIES - S r)) by (unfold _RETRIES in *; lia).
      cbn [retry_events]. rewrite <- ?app_assoc. cbn [app].
      replace (30 * Z.of_nat (S (_RETRIES - S r)))%Z with sl.
      * reflexivity.
      * unfold sl. unfold _RETRIES in *. assert (r = 0 \/ r = 1 \/ r = 2) as [-> | [-> | ->]] by lia; reflexivity.
Qed.

(** X5: [_urlopen] logs the URL once, then makes at most four attempts:
    every attempt before the [k]-th fails, the [k]-th succeeds unless it is
    the last one, and between attempts it logs and sleeps 30, 60, 90
    seconds in turn; the result is that of the [k]-th attempt. *)
Theorem urlopen_first_success (url : string) (w : world) :
  exists k, k <= 3 /\
    (forall j, j < k -> fails (net w (nreq w + j) url) = true) /\
    (k < 3 -> fails (net w (nreq w + k) url) = false) /\
    urlopen url w =
      (try_response (net w (nreq w + k) url), after w (EvLogUrl url :: retry_events url 0 k)).
Proof.
  destruct (_urlopen_attempts url _RETRIES w (le_n _)) as (k & Hk & Hf & Hs & Hc).
  exists k. split; [exact Hk|]. split; [exact Hf|]. split; [exact Hs|]. exact Hc.
Qed.

Lemma map_r_all_err {A B : Type} (f : A -> result B) l e :
  l <> [] -> (forall x, In x l -> f x = Err e) -> map_r f l = Err e.
Proof.
  destruct l as [|x l]; [congruence|]. intros _ H. cbn. now rewrite (H x (or_introl eq_refl)).
Qed.

(** X6: the listing providers (commits, tags, deployments of GitHub,
    commits and tags of GitLab) reverse the response with [reversed]: on a
    JSON object response they return the empty list when the object is
    empty and raise [TypeError] otherwise. *)
Theorem newest_first_object_response (key : string) (kvs : list (string * json)) :
  newest_first key (Some (JObj kvs)) = match kvs with [] => Ok [] | _ :: _ => Err TypeError end.
Proof.
  unfold newest_first; cbn [loads py_iter bind Monad_result].
  destruct kvs as [|kv kvs]; [reflexivity|].
  apply map_r_all_err.
  - cbn [map rev]. intros H. apply app_eq_nil in H as [_ H]. discriminate H.
  - intros x Hx. apply in_rev, in_map_iff in Hx as (kv' & <- & _). reflexivity.
Qed.

Lemma key_lt_unorderable a b :
  (unorderable a = true \/ unorderable b = true) -> key_lt a b = Err TypeError.
Proof.
  destruct a as [| x | x | x | x | x], b as [| y | y | y | y | y]; cbn;
    intros [H|H]; try discriminate H; reflexivity.
Qed.

Lemma key_lt_err : forall a b e, key_lt a b = Err e -> e = TypeError.
Proof.
  fix IH 1. intros a b e.
  destruct a as [| x | x | x | xs | x], b as [| y | y | y | ys | y]; cbn [key_lt as_int];
    try (intros H; discriminate H); try (intros H; injection H as <-; reflexivity).
  revert ys. revert xs. fix IHl 1. intros [|x xs] [|y ys]; try (intros H; discriminate H).
  destruct (py_eq x y); [apply IHl | apply IH].
Qed.

Lemma insert_by_key_err x s e : insert_by_key x s = Err e -> e = TypeError.
Proof.
  induction s as [|y s IH]; cbn; [discriminate|].
  destruct (key_lt (fst y) (fst x)) as [[|]|e'] eqn:K.
  - destruct (insert_by_key x s); [discriminate | intros [= <-]; now apply IH].
  - discriminate.
  - intros [= <-]. exact (key_lt_err _ _ _ K).
Qed.

Lemma sort_by_key_err l e : sort_by_key l = Err e -> e = TypeError.
Proof.
  induction l as [|x l IH]; cbn; [discriminate|].
  destruct (sort_by_key l) as [s|e']; [apply insert_by_key_err | intros [= <-]; now apply IH].
Qed.

Lemma sort_by_key_length l s : sort_by_key l = Ok s -> length s = length l.
Proof. intros H. apply Permutation_length. exact (proj1 (sort_by_key_correct _ _ H)). Qed.

Lemma sort_by_key_compares l s :
  sort_by_key l = Ok s -> 2 <= length l -> Forall (fun kv => unorderable (fst kv) = false) l.
Proof.
  revert s; induction l as [|x l IH]; intros s; cbn [sort_by_key length]; [intros _ H; lia|].
  destruct (sort_by_key l) as [s0|e] eqn:S0; [|discriminate]. intros I Hl.
  destruct s0 as [|y s0].
  { apply sort_by_key_length in S0. cbn in S0. lia. }
  cbn [insert_by_key] in I.
  destruct (key_lt (fst y) (fst x)) as [b|e] eqn:K; [|discriminate].
  assert (Hx : unorderable (fst x) = false /\ unorderable (fst y) = false).
  { destruct (unorderable (fst x)) eqn:Ux, (unorderable (fst y)) eqn:Uy; auto;
      rewrite key_lt_unorderable in K by auto; discriminate. }
  constructor; [exact (proj1 Hx)|].
  destruct l as [|z [|z' l]]; cbn [length] in Hl; [lia| |].
  - cbn in S0. injection S0 as <- <-. constructor; [exact (proj2 Hx) | constructor].
  - apply (IH (y :: s0) eq_refl). cbn; lia.
Qed.

Lemma map_r_length {A B : Type} (f : A -> result B) l ys : map_r f l = Ok ys -> length ys = length l.
Proof. intros H. exact (eq_sym (Forall2_length (map_r_forall2 _ _ _ H))). Qed.

Lemma in_combine_key {A B : Type} (ks : list A) (vs : list B) k :
  length ks = length vs -> In k ks -> exists v, In (k, v) (combine ks vs).
Proof.
  revert vs; induction ks as [|k' ks IH]; intros [|v vs]; cbn; try (intros; lia || contradiction).
  intros Hl [<-|Hin]; [eauto|]. destruct (IH vs ltac:(lia) Hin) as [v' Hv]. eauto.
Qed.

(** X7: [get_pip_versions_2] raises [TypeError] when at least two
    releases are kept and one of their upload times is [null] or an object,
    which Python cannot order. *)
Theorem pip_versions_unorderable_upload_time (d releases : json) (names versions keys : list json) :
  field d "releases" = Ok releases -> py_iter releases = Ok names ->
  filter_r (pip_release_filter releases) names = Ok versions ->
  map_r (pip_release_key releases) versions = Ok keys ->
  2 <= length versions -> (exists k, In k keys /\ unorderable k = true) ->
  pip_versions_of (Some d) = Err TypeError.
Proof.
  intros Hr Hn Hf Hk Hl (k & Hin & Hu).
  unfold pip_versions_of; cbn [loads bind Monad_result]. rewrite Hr, Hn, Hf, Hk.
  pose proof (map_r_length _ _ _ Hk) as Lk.
  destruct (sort_by_key (combine keys versions)) as [s|e] eqn:S.
  - exfalso. apply sort_by_key_compares in S.
    + destruct (in_combine_key keys versions k Lk Hin) as [v Hv].
      rewrite Forall_forall in S. specialize (S _ Hv). cbn in S. congruence.
    + rewrite length_combine, Lk, Nat.min_id. exact Hl.
  - now rewrite (sort_by_key_err _ _ S).
Qed.

Lemma lookup_str_none k kvs : lookup_str k kvs = None <-> ~ In k (map fst kvs).
Proof.
  induction kvs as [|[k' v] kvs IH]; cbn; [tauto|].
  destruct (String.eqb_spec k k') as [->|Hne]; [split; [discriminate | tauto]|].
  rewrite IH. intuition.
Qed.

(** X8: [get_cron_tag] makes no request and records no event; it raises
    [KeyError] exactly on a name outside the six cron names; ["annually"]
    and ["yearly"] give the same tag. *)
Theorem cron_tag_offline (cron : string) (w : world) :
  snd (get_cron_tag cron w) = w /\
  (fst (get_cron_tag cron w) = Err (KeyError (JStr cron)) <-> ~ In cron cron_choices) /\
  get_cron_tag "annually" w = get_cron_tag "yearly" w.
Proof.
  split; [|split; [|reflexivity]].
  - unfold get_cron_tag. destruct (lookup_str cron _CR_COICES); reflexivity.
  - change cron_choices with (map fst _CR_COICES). rewrite <- lookup_str_none.
    unfold get_cron_tag. destruct (lookup_str cron _CR_COICES); cbn; split; congruence.
Qed.

Lemma digits_count c s :
  forallb is_digit (list_ascii_of_string s) = true -> is_digit c = false -> count_char c s = 0.
Proof.
  induction s as [|d s IH]; cbn; [reflexivity|].
  intros H Hc. apply andb_prop in H as [Hd Hs].
  destruct (Ascii.eqb_spec c d) as [->|_]; [congruence|]. cbn. now apply IH.
Qed.

Lemma isdigit_count c s : isdigit s = true -> is_digit c = false -> count_char c s = 0.
Proof. destruct s as [|d s]; [discriminate|]. apply digits_count. Qed.


Lemma urlopen_requests u w :
  exists evs, snd (urlopen u w) = after w evs /\ only_requests u evs /\ length (requests evs) <= 4.
Proof. exact (_urlopen_requests u _RETRIES w). Qed.

Lemma after_lift_bind {A B : Type} (c : M A) (k : A -> result B) w :
  snd (bind c (fun a => lift (k a)) w) = snd (c w).
Proof. cbn [bind Monad_M]. destruct (c w) as [[a|e] w1]; reflexivity. Qed.

(** X9: with a numeric project id, [get_gl_commits] (on the bare id, which
    takes the default branch, or on the id followed by [":branch"]) and
    [get_gl_tags] skip the project lookup: they request only the commits
    (or tags) URL of the project id on the default GitLab base, with at
    most 4 attempts. *)
Theorem gl_numeric_project_requests (id branch : string) (w : world) :
  isdigit id = true -> count_char "@" branch = 0 ->
  (exists evs, snd (get_gl_commits id w) = after w evs /\
     only_requests (_DEFAULT_GL_BASE ^^ "/api/v4/projects/" ^^ str_of_Z (int_of_digits id) ^^
                    "/repository/commits?ref_name=" ^^ _DEFAULT_BRANCH) evs /\
     length (requests evs) <= 4) /\
  (exists evs, snd (get_gl_commits (id ^^ ":" ^^ branch) w) = after w evs /\
     only_requests (_DEFAULT_GL_BASE ^^ "/api/v4/projects/" ^^ str_of_Z (int_of_digits id) ^^
                    "/repository/commits?ref_name=" ^^ branch) evs /\
     length (requests evs) <= 4) /\
  (exists evs, snd (get_gl_tags id w) = after w evs /\
     only_requests (_DEFAULT_GL_BASE ^^ "/api/v4/projects/" ^^ str_of_Z (int_of_digits id) ^^
                    "/repository/tags?order_by=version") evs /\
     length (requests evs) <= 4).
Proof.
  intros Hd Hb.
  assert (Ha : count_char "@" id = 0) by (apply isdigit_count; [exact Hd | reflexivity]).
  assert (Hc : count_char ":" id = 0) by (apply isdigit_count; [exact Hd | reflexivity]).
  split; [|split].
  - unfold get_gl_commits, _get_gl_repository_base. rewrite base_default by exact Ha.
    cbn [bind Monad_M lift]. rewrite (branch_default _ Hc).
    unfold _get_gl_repository. rewrite Hd. cbn [bind Monad_M ret py_str py_repr].
    match goal with |- context [urlopen ?u w] =>
      destruct (urlopen_requests u w) as (evs & E & O & L); exists evs;
      split; [rewrite <- E; destruct (urlopen u w) as [[r|e] w1]; reflexivity | auto]
    end.
  - unfold get_gl_commits, _get_gl_repository_base.
    rewrite base_default by (rewrite !count_char_append, Ha, Hb; reflexivity).
    cbn [bind Monad_M lift]. rewrite (branch_first _ _ Hc).
    unfold _get_gl_repository. rewrite Hd. cbn [bind Monad_M ret py_str py_repr].
    match goal with |- context [urlopen ?u w] =>
      destruct (urlopen_requests u w) as (evs & E & O & L); exists evs;
      split; [rewrite <- E; destruct (urlopen u w) as [[r|e] w1]; reflexivity | auto]
    end.
  - unfold get_gl_tags, _get_gl_repository_base. rewrite base_default by exact Ha.
    cbn [bind Monad_M lift].
    unfold _get_gl_repository. rewrite Hd. cbn [bind Monad_M ret py_str py_repr].
    match goal with |- context [urlopen ?u w] =>
      destruct (urlopen_requests u w) as (evs & E & O & L); exists evs;
      split; [rewrite <- E; destruct (urlopen u w) as [[r|e] w1]; reflexivity | auto]
    end.
Qed.


Lemma urlopen_first_ok u w b :
  net w (nreq w) u = Response 200 (Some b) ->
  urlopen u w = (Ok (Some b), after w [EvLogUrl u; EvRequest u]).
Proof.
  intros H. unfold urlopen. rewrite _urlopen_eq; cbv zeta; cbn [Nat.eqb _RETRIES].
  rewrite nreq_after; cbn [requests filter is_request length]. rewrite Nat.add_0_r, H.
  cbn. now rewrite after_after.
Qed.

Lemma go_version_infos_ok module lines w :
  serves_json_from w (nreq w) ->
  exists infos evs, go_version_infos module lines w = (Ok infos, after w evs) /\
    requests evs = map (fun v => EvRequest (go_info_url module v)) lines.
Proof.
  revert w; induction lines as [|v lines IH]; intros w Hs; cbn [go_version_infos].
  - exists [], []. rewrite after_nil. split; reflexivity.
  - destruct (Hs (nreq w) (go_info_url module v) (le_n _)) as [b Hb].
    cbn [bind Monad_M]. unfold go_info_url in Hb. rewrite (urlopen_first_ok _ _ _ Hb).
    cbn [lift loads].
    set (w1 := after w [EvLogUrl _; EvRequest _]).
    assert (Hs1 : serves_json_from w1 (nreq w1)).
    { intros j u Hj. apply Hs. unfold w1 in Hj. rewrite nreq_after in Hj. lia. }
    destruct (IH w1 Hs1) as (infos & evs & E & R). rewrite E. cbn [ret Monad_M].
    exists (b :: infos), ([EvLogUrl (go_info_url module v); EvRequest (go_info_url module v)] ++ evs).
    unfold w1. rewrite after_after. split; [reflexivity|].
    unfold requests in *. rewrite filter_app, R. reflexivity.
Qed.

(** X11: [get_go_versions_1] never returns: it always ends in an error,
    and when the version list and every info document are served it
    requests the list, then the info of each listed version in order, and
    raises [NotImplementedError]. *)
Theorem go_versions_1_always_raises (text_lines : option json -> result (list string))
    (module : string) (w : world) :
  (exists e, fst (get_go_versions_1 text_lines module w) = Err e) /\
  (forall b lines,
     net w (nreq w) (go_list_url module) = Response 200 (Some b) ->
     serves_json_from w (S (nreq w)) ->
     text_lines (Some b) = Ok lines ->
     exists evs, get_go_versions_1 text_lines module w = (Err NotImplementedError, after w evs) /\
       requests evs = EvRequest (go_list_url module) ::
                      map (fun v => EvRequest (go_info_url module v)) lines).
Proof.
  split.
  - unfold get_go_versions_1. cbn [bind Monad_M lift raise].
    destruct (urlopen _ w) as [[r|e] w1]; [|eexists; reflexivity].
    destruct (text_lines r) as [lines|e]; [|eexists; reflexivity].
    destruct (go_version_infos module lines w1) as [[infos|e] w2]; eexists; reflexivity.
  - intros b lines Hb Hs Ht. unfold get_go_versions_1. cbn [bind Monad_M lift raise].
    unfold go_list_url in Hb. rewrite (urlopen_first_ok _ _ _ Hb), Ht.
    set (w1 := after w [EvLogUrl _; EvRequest _]).
    assert (Hs1 : serves_json_from w1 (nreq w1)).
    { intros j u Hj. apply Hs. unfold w1 in Hj. rewrite nreq_after in Hj. cbn in Hj. lia. }
    destruct (go_version_infos_ok module lines w1 Hs1) as (infos & evs & E & R). rewrite E.
    exists ([EvLogUrl ("https://proxy.golang.org/" ^^ module ^^ "/@v/list");
             EvRequest ("https://proxy.golang.org/" ^^ module ^^ "/@v/list")] ++ evs).
    unfold w1. rewrite after_after. split; [reflexivity|].
    unfold requests in *. rewrite filter_app, R. reflexivity.
Qed.

Lemma prefix_drop p l : String.prefix p l = true -> l = p ^^ drop_chars (String.length p) l.
Proof.
  revert l; induction p as [|c p IH]; intros l; [reflexivity|].
  destruct l as [|d l]; cbn; [discriminate|].
  destruct (ascii_dec c d) as [<-|]; [|discriminate]. intros H. now rewrite <- (IH l H).
Qed.

Lemma first_with_prefix_spec p lines :
  (forall v, first_with_prefix p lines = Ok v ->
     exists before rest, lines = before ++ (p ^^ v) :: rest /\
       Forall (fun l => String.prefix p l = false) before) /\
  (first_with_prefix p lines = Err AssertionError <->
     Forall (fun l => String.prefix p l = false) lines).
Proof.
  induction lines as [|l lines [IH1 IH2]]; cbn [first_with_prefix].
  - split; [discriminate|]. split; constructor.
  - destruct (String.prefix p l) eqn:P.
    + split.
      * intros v [= <-]. exists [], lines. rewrite <- (prefix_drop _ _ P). auto.
      * split; [discriminate|]. intros H. inversion H; congruence.
    + split.
      * intros v H. destruct (IH1 v H) as (before & rest & -> & F).
        exists (l :: before), rest. auto.
      * rewrite IH2. split; [auto | intros H; now inversion H].
Qed.

(** X12: [get_pip_version_4] returns the text after ["package=="] on the
    first output line that starts with it, and raises [AssertionError]
    exactly when no line starts with it. *)
Theorem pip_version_4_first_match (package stdout : string) :
  (forall v, pip_version_4_of package stdout = Ok v ->
     exists before rest, splitlines stdout = before ++ (package ^^ "==" ^^ v) :: rest /\
       Forall (fun l => String.prefix (package ^^ "==") l = false) before) /\
  (pip_version_4_of package stdout = Err AssertionError <->
     Forall (fun l => String.prefix (package ^^ "==") l = false) (splitlines stdout)).
Proof.
  unfold pip_version_4_of. destruct (first_with_prefix_spec (package ^^ "==") (splitlines stdout)) as [H1 H2].
  split; [|exact H2].
  intros v H. destruct (H1 v H) as (before & rest & E & F). exists before, rest.
  now rewrite <- str_append_assoc.
Qed.

Lemma split2_from_sep a b part v t :
  a <> b -> has_pair a b v = false ->
  split2_from a b part (v ^^ String a (String b t)) = (part ^^ v) :: split2_from a b "" t.
Proof.
  intros Hab. revert part; induction v as [|c v IH]; intros part Hv.
  - cbn [String.append split2_from]. rewrite !Ascii.eqb_refl, append_empty_r. reflexivity.
  - cbn [String.append split2_from].
    destruct v as [|d v].
    + cbn [String.append]. specialize (IH (part ^^ String c "") eq_refl).
      cbn [String.append] in IH.
      destruct (Ascii.eqb_spec c a), (Ascii.eqb_spec a b); try contradiction; cbn [andb];
        rewrite IH, append_empty_r; reflexivity.
    + cbn [has_pair] in Hv. apply orb_false_elim in Hv as [Hcd Hv].
      cbn [String.append] in *. rewrite Hcd.
      specialize (IH (part ^^ String c "") Hv). cbn [String.append] in IH.
      rewrite IH. now rewrite str_append_assoc.
Qed.

Lemma split2_from_last a b part v :
  has_pair a b v = false -> split2_from a b part v = [part ^^ v].
Proof.
  revert part; induction v as [|c v IH]; intros part Hv.
  - cbn. now rewrite append_empty_r.
  - destruct v as [|d v]; [reflexivity|].
    cbn [has_pair] in Hv. apply orb_false_elim in Hv as [Hcd Hv].
    change (split2_from a b part (String c (String d v))) with
      (if (Ascii.eqb c a && Ascii.eqb d b)%bool then part :: split2_from a b "" v
       else split2_from a b (part ^^ String c "") (String d v)).
    rewrite Hcd, (IH _ Hv). now rewrite str_append_assoc.
Qed.

Lemma split2_join a b vs :
  a <> b -> vs <> [] -> Forall (fun v => has_pair a b v = false) vs ->
  split2 a b (join (String a (String b EmptyString)) vs) = vs.
Proof.
  intros Hab. unfold split2. induction vs as [|v vs IH]; intros Hne F; [congruence|].
  inversion F as [|? ? Hv Fs]; subst.
  destruct vs as [|v' vs].
  - cbn [join]. now rewrite split2_from_last.
  - change (join (String a (String b "")) (v :: v' :: vs))
      with (v ^^ String a (String b "") ^^ join (String a (String b "")) (v' :: vs)).
    cbn [String.append]. rewrite (split2_from_sep _ _ _ _ _ Hab Hv), IH; [reflexivity | congruence | exact Fs].
Qed.

Lemma drop_chars_append h x : drop_chars (String.length h) (h ^^ x) = x.
Proof. induction h as [|c h IH]; [reflexivity | exact IH]. Qed.

Lemma py_last_nonempty {A : Type} (xs : list A) d : xs <> [] -> py_last xs = Ok (last xs d).
Proof.
  intros H. destruct (exists_last H) as (l & x & ->). unfold py_last.
  rewrite rev_app_distr, last_last. reflexivity.
Qed.

Lemma py_index_one {A : Type} (xs : list A) :
  py_index xs 1 = match xs with _ :: x :: _ => Ok x | _ => Err IndexError end.
Proof.
  destruct xs as [|x0 [|x1 xs]]; [reflexivity | reflexivity |].
  assert (H2 : (Z.of_nat (length (x0 :: x1 :: xs)) <=? 1)%Z = false)
    by (apply Z.leb_gt; cbn [length]; lia).
  unfold py_index; cbv zeta. replace ((1 <? 0)%Z) with false by reflexivity. rewrite H2. reflexivity.
Qed.

(** X13: [get_pip_versions_3] and [get_pip_version_3] raise [IndexError]
    when the output has at most one line; when the second line is a
    20-character header followed by versions joined by [", "], they return
    the versions reversed, and the first listed version. *)
Theorem pip_versions_3_listing (stdout : string) :
  (length (splitlines stdout) <= 1 ->
   pip_versions_3_of stdout = Err IndexError /\ pip_version_3_of stdout = Err IndexError) /\
  (forall (first header : string) (rest vs : list string),
     splitlines stdout = first :: (header ^^ join ", " vs) :: rest ->
     String.length header = 20 -> vs <> [] ->
     Forall (fun v => has_pair "," " " v = false) vs ->
     pip_versions_3_of stdout = Ok (rev vs) /\ pip_version_3_of stdout = Ok (hd "" vs)).
Proof.
  split.
  - intros Hl. unfold pip_version_3_of, pip_versions_3_of. rewrite py_index_one.
    destruct (splitlines stdout) as [|l0 [|l1 ls]]; cbn [length] in Hl; try lia; split; reflexivity.
  - intros first header rest vs E Hh Hne F.
    assert (Hv : pip_versions_3_of stdout = Ok (rev vs)).
    { unfold pip_versions_3_of. rewrite py_index_one, E. cbn [bind Monad_result ret].
      rewrite <- Hh, drop_chars_append, split2_join; [reflexivity | discriminate | exact Hne | exact F]. }
    split; [exact Hv|].
    unfold pip_version_3_of. rewrite Hv. cbn [bind Monad_result]. rewrite py_last_rev.
    destruct vs; [congruence | reflexivity].
Qed.

Lemma search_no_paren s : count_char "(" s = 0 -> search_from_versions s = None.
Proof.
  induction s as [|c s IH]; [reflexivity|]. cbn [count_char].
  destruct (Ascii.eqb_spec "(" c) as [<-|Hc]; [discriminate|]. intros H.
  cbn [search_from_versions from_versions String.prefix].
  destruct (ascii_dec "(" c) as [E|_]; [contradiction|]. now apply IH.
Qed.

Lemma search_skip pre x : count_char "(" pre = 0 -> search_from_versions (pre ^^ x) = search_from_versions x.
Proof.
  induction pre as [|c pre IH]; [reflexivity|]. cbn [count_char].
  destruct (Ascii.eqb_spec "(" c) as [<-|Hc]; [discriminate|]. intros H.
  cbn [String.append search_from_versions from_versions String.prefix].
  destruct (ascii_dec "(" c) as [E|_]; [contradiction|]. now apply IH.
Qed.

Lemma search_eq s :
  search_from_versions s =
  match (if String.prefix from_versions s
         then group_before_paren (drop_chars (String.length from_versions) s)
         else None) with
  | Some g => Some g
  | None => match s with EmptyString => None | String _ s' => search_from_versions s' end
  end.
Proof. destruct s; reflexivity. Qed.

Lemma prefix_self p r : String.prefix p (p ^^ r) = true.
Proof.
  induction p as [|c p IH]; [now destruct r|]. cbn. destruct (ascii_dec c c); [exact IH | contradiction].
Qed.

Lemma group_at_paren g post :
  count_char ")" g = 0 -> count_char "010" g = 0 -> group_before_paren post = None ->
  group_before_paren (g ^^ ")" ^^ post) = Some g.
Proof.
  intros Hp Hn Hpost. induction g as [|c g IH].
  - cbn [String.append group_before_paren]. rewrite Hpost. reflexivity.
  - cbn [count_char] in Hp, Hn.
    destruct (Ascii.eqb_spec ")" c) as [|Hc]; [discriminate|].
    destruct (Ascii.eqb_spec "010" c) as [|Hc']; [discriminate|].
    change ((String c g) ^^ ")" ^^ post) with (String c (g ^^ ")" ^^ post)).
    cbn [group_before_paren].
    rewrite (proj2 (Ascii.eqb_neq c "010")) by congruence.
    rewrite IH by assumption. reflexivity.
Qed.

Lemma count_join c sep vs :
  count_char c sep = 0 -> Forall (fun v => count_char c v = 0) vs -> count_char c (join sep vs) = 0.
Proof.
  intros Hs. induction 1 as [|v vs Hv F IH]; [reflexivity|].
  destruct vs as [|v' vs]; [exact Hv|].
  change (join sep (v :: v' :: vs)) with (v ^^ sep ^^ join sep (v' :: vs)).
  now rewrite !count_char_append, Hv, Hs, IH.
Qed.

(** X14: [get_pip_versions_1] and [get_pip_version_1] raise
    [AssertionError] when the error output has no ['(']; when it holds
    ["(from versions: v1, ..., vn)"] at the end of a line, they return the
    versions in the listed order, and the last one. *)
Theorem pip_versions_1_listing :
  (forall stderr : string, count_char "(" stderr = 0 ->
     pip_versions_1_of stderr = Err AssertionError /\ pip_version_1_of stderr = Err AssertionError) /\
  (forall (pre post : string) (vs : list string),
     count_char "(" pre = 0 -> vs <> [] ->
     Forall (fun v => has_pair "," " " v = false /\ count_char ")" v = 0 /\ count_char "010" v = 0) vs ->
     (post = "" \/ exists rest, post = String "010" rest) ->
     pip_versions_1_of (pre ^^ "(from versions: " ^^ join ", " vs ^^ ")" ^^ post) = Ok vs /\
     pip_version_1_of (pre ^^ "(from versions: " ^^ join ", " vs ^^ ")" ^^ post) = Ok (last vs "")).
Proof.
  split.
  - intros s H. unfold pip_version_1_of, pip_versions_1_of. rewrite (search_no_paren _ H).
    split; reflexivity.
  - intros pre post vs Hpre Hne F Hpost.
    assert (Hv : pip_versions_1_of (pre ^^ "(from versions: " ^^ join ", " vs ^^ ")" ^^ post) = Ok vs).
    { unfold pip_versions_1_of. rewrite (search_skip _ _ Hpre).
      change "(from versions: " with from_versions.
      rewrite search_eq, prefix_self, drop_chars_append.
      rewrite group_at_paren.
      - rewrite split2_join; [reflexivity | discriminate | exact Hne |].
        eapply Forall_impl; [|exact F]. cbn. tauto.
      - apply count_join; [reflexivity|]. eapply Forall_impl; [|exact F]. cbn. tauto.
      - apply count_join; [reflexivity|]. eapply Forall_impl; [|exact F]. cbn. tauto.
      - destruct Hpost as [->|[rest ->]]; reflexivity. }
    split; [exact Hv|]. unfold pip_version_1_of. rewrite Hv. cbn [bind Monad_result].
    now apply py_last_nonempty.
Qed.

(** X15: once the arguments are parsed, the rest of [main] prints at most
    one line, ["tag=..."], and prints nothing when it raises. *)
Theorem main_prints_at_most_once (a : args) (w : world) :
  exists evs, snd (main a w) = after w evs /\
    match fst (main a w) with
    | Ok _ => stdout_lines evs = [] \/ exists tag, stdout_lines evs = ["tag=" ^^ py_str tag]
    | Err _ => stdout_lines evs = []
    end.
Proof.
  unfold main. cbn [bind Monad_M].
  destruct (quiet_get_docker_tags (docker_tag a) w) as (evs1 & E1 & S1).
  destruct (get_docker_tags (docker_tag a) w) as [[tags|e] w1]; cbn in E1; subst w1;
    [|exists evs1; auto].
  destruct (quiet_select_tag a (after w evs1)) as (evs2 & E2 & S2).
  destruct (select_tag a (after w evs1)) as [[tag|e] w2]; cbn in E2; subst w2.
  - destruct (py_in tag tags); cbn [negb].
    + exists (evs1 ++ evs2). rewrite after_after. split; [reflexivity|]. left.
      now rewrite stdout_lines_app, S1, S2.
    + exists (evs1 ++ evs2 ++ [EvStdout ("tag=" ^^ py_str tag)]).
      cbn [emit fst snd]. unfold after at 1 3; cbn. rewrite <- !app_assoc.
      split; [reflexivity|]. right. exists tag.
      now rewrite !stdout_lines_app, S1, S2.
  - exists (evs1 ++ evs2). rewrite after_after. split; [reflexivity|].
    now rewrite stdout_lines_app, S1, S2.
Qed.

(** X16: with an empty artifact repository, [main] prints the tag the
    selected provider returns, without fetching any published tag. *)
Theorem main_empty_repository_prints (a : args) (w w2 : world) (tag : json) :
  docker_tag a = "" -> select_tag a w = (Ok tag, w2) ->
  main a w = (Ok tt, after w2 [EvStdout ("tag=" ^^ py_str tag)]).
Proof.
  intros Hd Hs. unfold main. cbn [bind Monad_M]. rewrite Hd. cbn [get_docker_tags String.eqb].
  cbn [ret Monad_M]. rewrite Hs. reflexivity.
Qed.

(** ** Instances of the further properties *)

Lemma repository_base_first_at_witness :
  _get_repository_base "octo/app" "https://api.github.com" = Ok ("octo/app", "https://api.github.com") /\
  _get_repository_base ("octo/app" ^^ "@" ^^ "https://git@example.com") "https://api.github.com" =
  Ok ("octo/app", "https://git@example.com").
Proof.
  split.
  - apply (proj1 (repository_base_first_at "https://api.github.com" "octo/app" "octo/app" "")).
    reflexivity.
  - apply (proj2 (repository_base_first_at "https://api.github.com" "" "octo/app"
                    "https://git@example.com")).
    reflexivity.
Defined.

Lemma repository_branch_first_colon_witness :
  _get_repository_branch "octo/app" = Ok ("octo/app", "") /\
  _get_repository_branch ("octo/app" ^^ ":" ^^ "feature:x") = Ok ("octo/app", "feature:x").
Proof.
  split.
  - apply (proj1 (repository_branch_first_colon "octo/app" "" "")). reflexivity.
  - apply (proj2 (repository_branch_first_colon "" "octo/app" "feature:x")). reflexivity.
Defined.

Lemma repository_path_parts_witness :
  _get_repository_path "octo" = Err ValueError /\
  _get_repository_path ("octo" ^^ "/" ^^ "app" ^^ "/" ^^ "docs/api") = Ok ("octo" ^^ "/" ^^ "app", "docs/api").
Proof.
  split.
  - apply (proj1 (repository_path_parts "octo" "" "" "")). reflexivity.
  - apply (proj2 (repository_path_parts "" "octo" "app" "docs/api")); reflexivity.
Defined.

Lemma gh_commits_url_parts_witness :
  gh_commits_url ("octo" ^^ "/" ^^ "app" ^^ "/" ^^ "docs/api" ^^ ":" ^^ "main" ^^ "@" ^^ "https://ghe.example.com:8443") =
  Ok ("https://ghe.example.com:8443" ^^ "/repos/" ^^ "octo" ^^ "/" ^^ "app" ^^ "/commits?sha=" ^^ "main" ^^
      "&path=" ^^ "docs/api").
Proof.
  apply gh_commits_url_parts; reflexivity.
Defined.

Lemma urlopen_first_success_witness :
  exists k, k <= 3 /\ (k < 3 -> fails (net flaky_world (nreq flaky_world + k) "u") = false) /\
    urlopen "u" flaky_world =
      (try_response (net flaky_world (nreq flaky_world + k) "u"),
       after flaky_world (EvLogUrl "u" :: retry_events "u" 0 k)).
Proof.
  destruct (urlopen_first_success "u" flaky_world) as [k [Hk [_ [Hs E]]]].
  exists k. split; [exact Hk | split; [exact Hs | exact E]].
Defined.

Lemma pip_versions_unorderable_upload_time_witness :
  pip_versions_of (Some unordered_pypi) = Err TypeError.
Proof.
  apply (pip_versions_unorderable_upload_time unordered_pypi
           (JObj [("1.1.0", JArr [JObj [("yanked", JBool false); ("upload_time_iso_8601", JNull)]]);
                  ("1.0.0", JArr [pypi_file false "2020-01-01T00:00:00.000000Z"])])
           [JStr "1.1.0"; JStr "1.0.0"] [JStr "1.1.0"; JStr "1.0.0"]
           [JNull; JStr "2020-01-01T00:00:00.000000Z"]).
  - reflexivity.
  - reflexivity.
  - reflexivity.
  - reflexivity.
  - cbn [length]. lia.
  - exists JNull. split; [left; reflexivity | reflexivity].
Defined.

Lemma cron_tag_offline_witness :
  fst (get_cron_tag "fortnightly" (world_serving JNull)) = Err (KeyError (JStr "fortnightly")) /\
  snd (get_cron_tag "daily" (world_serving JNull)) = world_serving JNull.
Proof.
  split.
  - apply (proj1 (proj2 (cron_tag_offline "fortnightly" (world_serving JNull)))).
    unfold cron_choices. cbn [In]. intuition discriminate.
  - apply (proj1 (cron_tag_offline "daily" (world_serving JNull))).
Defined.

Lemma gl_numeric_project_requests_witness :
  exists evs, snd (get_gl_commits "278964" (world_serving (JArr []))) =
              after (world_serving (JArr [])) evs /\
    only_requests (_DEFAULT_GL_BASE ^^ "/api/v4/projects/" ^^ "278964" ^^
                   "/repository/commits?ref_name=" ^^ _DEFAULT_BRANCH) evs /\
    length (requests evs) <= 4.
Proof.
  exact (proj1 (gl_numeric_project_requests "278964" "main" (world_serving (JArr [])) eq_refl eq_refl)).
Defined.


Lemma go_versions_1_always_raises_witness :
  exists evs,
    get_go_versions_1 text_lines_of_body "golang.org/x/text"
      (world_serving (JStr ("v0.3.0" ^^ newline ^^ "v0.4.0"))) =
      (Err NotImplementedError, after (world_serving (JStr ("v0.3.0" ^^ newline ^^ "v0.4.0"))) evs) /\
    requests evs = [EvRequest (go_list_url "golang.org/x/text");
                    EvRequest (go_info_url "golang.org/x/text" "v0.3.0");
                    EvRequest (go_info_url "golang.org/x/text" "v0.4.0")].
Proof.
  apply (proj2 (go_versions_1_always_raises text_lines_of_body "golang.org/x/text"
                  (world_serving (JStr ("v0.3.0" ^^ newline ^^ "v0.4.0"))))
           (JStr ("v0.3.0" ^^ newline ^^ "v0.4.0")) ["v0.3.0"; "v0.4.0"]).
  - reflexivity.
  - intros j u _. eexists. reflexivity.
  - reflexivity.
Defined.

Lemma pip_version_4_first_match_witness :
  (exists before rest,
     splitlines ("pip==24.0" ^^ newline ^^ "requests==2.31.0" ^^ newline ^^ "requests==2.32.0") =
     before ++ ("requests" ^^ "==" ^^ "2.31.0") :: rest /\
     Forall (fun l => String.prefix ("requests" ^^ "==") l = false) before) /\
  pip_version_4_of "requests" ("pip==24.0" ^^ newline ^^ "six==1.16.0") = Err AssertionError.
Proof.
  split.
  - apply (proj1 (pip_version_4_first_match "requests"
                    ("pip==24.0" ^^ newline ^^ "requests==2.31.0" ^^ newline ^^ "requests==2.32.0"))).
    reflexivity.
  - apply (proj2 (proj2 (pip_version_4_first_match "requests" ("pip==24.0" ^^ newline ^^ "six==1.16.0")))).
    repeat constructor.
Defined.

Lemma pip_versions_3_listing_witness :
  pip_versions_3_of "requests (2.32.0)" = Err IndexError /\
  pip_versions_3_of ("requests (2.32.0)" ^^ newline ^^ "Available versions: " ^^ "2.32.0, 2.31.0, 2.30.0") =
    Ok ["2.30.0"; "2.31.0"; "2.32.0"] /\
  pip_version_3_of ("requests (2.32.0)" ^^ newline ^^ "Available versions: " ^^ "2.32.0, 2.31.0, 2.30.0") =
    Ok "2.32.0".
Proof.
  split; [|split].
  - apply (proj1 (pip_versions_3_listing "requests (2.32.0)")). exact (le_n 1).
  - apply (proj2 (pip_versions_3_listing _) "requests (2.32.0)" "Available versions: " []
             ["2.32.0"; "2.31.0"; "2.30.0"]); try reflexivity.
    + discriminate.
    + repeat constructor.
  - apply (proj2 (pip_versions_3_listing _) "requests (2.32.0)" "Available versions: " []
             ["2.32.0"; "2.31.0"; "2.30.0"]); try reflexivity.
    + discriminate.
    + repeat constructor.
Defined.

Lemma pip_versions_1_listing_witness :
  pip_versions_1_of "ERROR: No matching distribution found" = Err AssertionError /\
  pip_version_1_of ("ERROR: Could not find a version that satisfies the requirement requests==0 " ^^
                    "(from versions: " ^^ "2.30.0, 2.31.0" ^^ ")" ^^ newline ^^
                    "ERROR: No matching distribution found") = Ok "2.31.0".
Proof.
  split.
  - apply (proj1 pip_versions_1_listing). reflexivity.
  - apply (proj2 pip_versions_1_listing
             "ERROR: Could not find a version that satisfies the requirement requests==0 "
             (newline ^^ "ERROR: No matching distribution found") ["2.30.0"; "2.31.0"]).
    + reflexivity.
    + discriminate.
    + repeat constructor.
    + right. eexists. reflexivity.
Defined.

Lemma main_empty_repository_prints_witness :
  main (with_pip "foo" (no_flags "")) (world_serving scenario1_pypi) =
  (Ok tt, after (snd (select_tag (with_pip "foo" (no_flags "")) (world_serving scenario1_pypi)))
                [EvStdout ("tag=" ^^ py_str (JStr "1.1.0"))]).
Proof.
  apply main_empty_repository_prints.
  - reflexivity.
  - vm_compute. reflexivity.
Defined.
